(** * The answer resolution engine of create-adapter

    A shallow embedding of [src/lib/questions.ts]: the question graph
    ([questions]), the completeness check ([checkAnswers]), the
    transformation pass ([formatAnswers]), the validation pass
    ([validateAnswers]), the static defaults ([getDefaultAnswer]) and some
    of the migration functions attached to questions; and of the template
    [templates/_npmignore.ts].

    Conventions of the embedding.
    - A JavaScript object used as a dictionary is a [gmap string _]; reading
      a key that is not there gives [None], which stands for [undefined].
    - The functions of the source that mutate or only read the answer object
      are written in a small state-and-exception monad ([Run]) over a
      [Session]: the answer object together with a log of the callbacks
      (validators, transforms) that were invoked.
    - [async]/[await] is sequential in the source (one question is settled
      before the next one is looked at), so awaiting is modelled by
      [settle], which takes the value a promise is fulfilled with. *)

From stdpp Require Import base option list strings gmap.

Local Open Scope string_scope.
Local Open Scope Z_scope.
Local Open Scope list_scope.

(** ** Answer values *)

(** [type AnswerValue = string | boolean | number].  The only numeric answer
    slot, [ecmaVersion], holds a year, so numbers are integers here. *)
Inductive AnswerValue : Type :=
  | AString (s : string)
  | ABool (b : bool)
  | ANumber (n : Z).

#[global] Instance AnswerValue_eq_dec : EqDecision AnswerValue.
Proof. solve_decision. Defined.

(** The four shapes of [AdapterSettings], tagged by [inputType]. *)
Inductive AdapterSettings : Type :=
  | StringAdapterSettings (key : string) (label : option string)
      (defaultValue : option string)
  | NumberAdapterSettings (key : string) (label : option string)
      (defaultValue : option Z)
  | BooleanAdapterSettings (key : string) (label : option string)
      (defaultValue : option bool)
  | SelectAdapterSettings (key : string) (label : option string)
      (defaultValue : option string) (options : list (string * string)).

(** What a slot of [Answers] can hold: a scalar, an array of scalars, the
    structured [adapterSettings] list, or the binary [icon].  [null] is not
    a member of any field type of [Answers]. *)
Inductive Answer : Type :=
  | Scalar (v : AnswerValue)
  | Array (vs : list AnswerValue)
  | Settings (entries : list AdapterSettings)
  | Buffer (bytes : list N).

(** [Partial<Answers>] / [Record<string, any>]. *)
Abbreviation Answers := (gmap string Answer).

(** [x == undefined] and [x != undefined] on the result of a property read. *)
Definition isUndefined (x : option Answer) : bool :=
  match x with None => true | Some _ => false end.

Definition isDefined (x : option Answer) : bool := negb (isUndefined x).

(** [x === v] where [v] is a scalar: same type and same value.  An array or
    an object is never strictly equal to a scalar. *)
Definition strictEquals (x : option Answer) (v : AnswerValue) : bool :=
  match x with
  | Some (Scalar w) => bool_decide (w = v)
  | _ => false
  end.

(** ** Conditions *)

(** [type Condition = { name } & ({ value } | { contains } | { doesNotContain })].
    [value] is a scalar or an array of scalars, hence two constructors.  The
    fourth member of the union, keyed by the [__misused] symbol, exists only
    to provoke type errors and has no inhabitant in the question graph. *)
Inductive Condition : Type :=
  | CondValue (name : string) (value : AnswerValue)
  | CondValueOneOf (name : string) (value : list AnswerValue)
  | CondContains (name : string) (contains : AnswerValue)
  | CondDoesNotContain (name : string) (doesNotContain : AnswerValue).

(** [condition?: Condition | Condition[]]. *)
Inductive QuestionCondition : Type :=
  | NoCondition
  | OneCondition (c : Condition)
  | AllConditions (cs : list Condition).

(** Modelled from the spec: [testCondition] is imported from
    [./createAdapter], which is not part of the sources at hand.  Section 4.1
    of the specification fixes its contract, clause by clause. *)
Definition testSingleCondition (cond : Condition) (answers : Answers) : bool :=
  match cond with
  | CondValue n v => strictEquals (answers !! n) v
  | CondValueOneOf n vs => existsb (strictEquals (answers !! n)) vs
  | CondContains n x =>
      match answers !! n with
      | Some (Array vs) => bool_decide (x ∈ vs)
      | _ => false
      end
  | CondDoesNotContain n x =>
      match answers !! n with
      | Some (Array vs) => negb (bool_decide (x ∈ vs))
      | _ => true
      end
  end.

(** Modelled from the spec: the entry point of the condition evaluator
    (absent [./createAdapter]): no condition is true, a list is a
    conjunction. *)
Definition testCondition (condition : QuestionCondition) (answers : Answers)
  : bool :=
  match condition with
  | NoCondition => true
  | OneCondition c => testSingleCondition c answers
  | AllConditions cs => forallb (fun c => testSingleCondition c answers) cs
  end.

(** ** Callbacks *)

(** A value that is either there already or arrives through a promise.  A
    promise is identified with the value it is fulfilled with: the callbacks
    are taken at their signatures, which promise a result and no failure. *)
Inductive Eventually (A : Type) : Type :=
  | Plain (a : A)
  | Promised (a : A).
Arguments Plain {A} a.
Arguments Promised {A} a.

(** [x instanceof Promise ? await x : x], and [await x] alike. *)
Definition settle {A : Type} (x : Eventually A) : A :=
  match x with Plain a => a | Promised a => a end.

(** [CheckResult]: a validator answers [true] or an error text. *)
Inductive CheckResult : Type :=
  | CheckTrue
  | CheckString (message : string).

Definition QuestionAction : Type := option Answer -> Eventually CheckResult.
Definition ResultTransform : Type := Answer -> Eventually (option Answer).

(** The module [./actionsAndTransformers] is imported, not defined, by
    [questions.ts]; its exports are parameters of the question graph. *)
Record ActionsAndTransformers : Type := {
  checkAdapterName : QuestionAction;
  checkAuthorName : QuestionAction;
  checkEmail : QuestionAction;
  checkMinSelections : string -> Z -> QuestionAction;
  checkTitle : QuestionAction;
  checkTypeScriptTools : QuestionAction;
  transformAdapterName : ResultTransform;
  transformContributors : ResultTransform;
  transformDescription : ResultTransform;
  transformKeywords : ResultTransform;
}.

(** ** Questions *)

(** The fields of [Question] that the functions below read.  The prompt
    texts, choices, hints and initial values belong to the renderer; the
    [migrate] functions needed later are given on their own further down.
    An absent [optional] is falsy, so it is [false] here. *)
Record Question : Type := {
  name : string;
  condition : QuestionCondition;
  optional : bool;
  resultTransform : option ResultTransform;
  action : option QuestionAction;
}.

(** The entries of [questionsAndText]: text lines and conditional titles
    (whose content is presentation only), groups of questions, and single
    questions. *)
Inductive Entry : Type :=
  | TextLine
  | ConditionalTitle
  | QuestionGroup (questions : list Question)
  | SingleQuestion (q : Question).

(** [styledMultiselect] adds [type], [hint] and [symbols] to a question and
    leaves every other field as given. *)
Definition styledMultiselect (ms : Question) : Question := ms.

Definition adapterFeature : Condition :=
  CondContains "features" (AString "adapter").

Section QuestionGraph.

Context (lib : ActionsAndTransformers).

Definition questionsAndText : list Entry := [
  TextLine; TextLine; TextLine; TextLine; TextLine; TextLine;
  ConditionalTitle; ConditionalTitle;
  QuestionGroup [
    {| name := "adapterName"; condition := NoCondition; optional := false;
       resultTransform := Some (transformAdapterName lib);
       action := Some (checkAdapterName lib) |};
    {| name := "title"; condition := NoCondition; optional := false;
       resultTransform := None; action := Some (checkTitle lib) |};
    {| name := "description"; condition := NoCondition; optional := true;
       resultTransform := Some (transformDescription lib);
       action := None |};
    {| name := "keywords"; condition := NoCondition; optional := true;
       resultTransform := Some (transformKeywords lib); action := None |};
    {| name := "contributors"; condition := NoCondition; optional := true;
       resultTransform := Some (transformContributors lib);
       action := None |};
    {| name := "icon";
       condition := OneCondition (CondValue "cli" (ABool false));
       optional := true; resultTransform := None; action := None |}
  ];
  QuestionGroup [
    {| name := "expert"; condition := NoCondition; optional := true;
       resultTransform := None; action := None |};
    styledMultiselect
      {| name := "features"; condition := NoCondition; optional := false;
         resultTransform := None;
         action := Some (checkMinSelections lib "feature" 1) |};
    styledMultiselect
      {| name := "adminFeatures"; condition := OneCondition adapterFeature;
         optional := false; resultTransform := None; action := None |};
    {| name := "type"; condition := OneCondition adapterFeature;
       optional := false; resultTransform := None; action := None |};
    {| name := "type";
       condition :=
         OneCondition (CondDoesNotContain "features" (AString "adapter"));
       optional := false; resultTransform := None; action := None |};
    {| name := "startMode"; condition := OneCondition adapterFeature;
       optional := false; resultTransform := None; action := None |};
    {| name := "scheduleStartOnChange";
       condition :=
         OneCondition (CondValue "startMode" (AString "schedule"));
       optional := false; resultTransform := None; action := None |};
    {| name := "connectionType"; condition := OneCondition adapterFeature;
       optional := true; resultTransform := None; action := None |};
    {| name := "dataSource"; condition := OneCondition adapterFeature;
       optional := true; resultTransform := None; action := None |};
    {| name := "connectionIndicator";
       condition := OneCondition adapterFeature;
       optional := false; resultTransform := None; action := None |};
    {| name := "adapterSettings";
       condition :=
         AllConditions [adapterFeature; CondValue "cli" (ABool false)];
       optional := true; resultTransform := None; action := None |};
    {| name := "language"; condition := OneCondition adapterFeature;
       optional := false; resultTransform := None; action := None |};
    {| name := "adminReact"; condition := AllConditions [adapterFeature];
       optional := false; resultTransform := None; action := None |};
    {| name := "tabReact";
       condition :=
         AllConditions [CondContains "adminFeatures" (AString "tab")];
       optional := false; resultTransform := None; action := None |};
    styledMultiselect
      {| name := "tools";
         condition :=
           OneCondition (CondValue "language" (AString "JavaScript"));
         optional := false; resultTransform := None; action := None |};
    styledMultiselect
      {| name := "tools";
         condition :=
           OneCondition (CondValue "language" (AString "TypeScript"));
         optional := false; resultTransform := None;
         action := Some (checkTypeScriptTools lib) |};
    {| name := "indentation"; condition := OneCondition adapterFeature;
       optional := false; resultTransform := None; action := None |};
    {| name := "quotes"; condition := OneCondition adapterFeature;
       optional := false; resultTransform := None; action := None |};
    {| name := "es6class"; condition := OneCondition adapterFeature;
       optional := false; resultTransform := None; action := None |}
  ];
  QuestionGroup [
    {| name := "authorName"; condition := NoCondition; optional := false;
       resultTransform := None; action := Some (checkAuthorName lib) |};
    {| name := "authorGithub"; condition := NoCondition; optional := false;
       resultTransform := None; action := Some (checkAuthorName lib) |};
    {| name := "authorEmail"; condition := NoCondition; optional := false;
       resultTransform := None; action := Some (checkEmail lib) |};
    {| name := "gitRemoteProtocol"; condition := NoCondition;
       optional := false; resultTransform := None; action := None |};
    {| name := "gitCommit";
       condition := OneCondition (CondValue "cli" (ABool true));
       optional := false; resultTransform := None; action := None |};
    {| name := "license"; condition := NoCondition; optional := false;
       resultTransform := None; action := None |};
    {| name := "ci"; condition := NoCondition; optional := false;
       resultTransform := None; action := None |};
    {| name := "dependabot"; condition := NoCondition; optional := false;
       resultTransform := None; action := None |}
  ];
  TextLine; TextLine
].

(** [typeof q !== "string" && typeof q !== "function"]. *)
Definition isQuestionOrGroup (e : Entry) : bool :=
  match e with
  | TextLine | ConditionalTitle => false
  | QuestionGroup _ | SingleQuestion _ => true
  end.

(** [isQuestionGroup(q) ? q.questions : [q]].  The filter before it has
    removed the entries that carry no question. *)
Definition questionsOf (e : Entry) : list Question :=
  match e with
  | QuestionGroup qs => qs
  | SingleQuestion q => [q]
  | TextLine | ConditionalTitle => []
  end.

(** Only the questions: filter, map, then concatenate from the left. *)
Definition questions : list Question :=
  fold_left (fun arr next => arr ++ next)
    (map questionsOf (List.filter isQuestionOrGroup questionsAndText)) [].

End QuestionGraph.

(** ** Sessions: the answer object and the callback log *)

(** One entry per invocation of a callback of the question graph, with the
    name of the question it belongs to and the argument it received.  The
    log is a ghost component: the source keeps no such list. *)
Inductive Call : Type :=
  | ActionCall (question : string) (value : option Answer)
  | TransformCall (question : string) (value : Answer).

Record Session : Type := {
  answers : Answers;
  calls : list Call;
}.

(** How a function body ends: it returns, or it throws [new Error(message)]. *)
Inductive Completion (A : Type) : Type :=
  | Normal (a : A)
  | Throw (message : string).
Arguments Normal {A} a.
Arguments Throw {A} message.

Definition Run (A : Type) : Type := Session -> Completion A * Session.

#[global] Instance Run_ret : MRet Run := fun A a s => (Normal a, s).

#[global] Instance Run_bind : MBind Run := fun A B k m s =>
  match m s with
  | (Normal a, s') => k a s'
  | (Throw e, s') => (Throw e, s')
  end.

Definition throwError {A : Type} (message : string) : Run A :=
  fun s => (Throw message, s).

(** [answers[key]]. *)
Definition readAnswer (key : string) : Run (option Answer) :=
  fun s => (Normal (answers s !! key), s).

(** [answers[key] = v].  Storing [undefined] leaves a key that reads as
    [undefined], which every reader in this file cannot tell from a missing
    key. *)
Definition writeAnswer (key : string) (v : option Answer) : Run unit :=
  fun s =>
    (Normal tt,
     {| answers := match v with
                   | Some a => <[key := a]> (answers s)
                   | None => delete key (answers s)
                   end;
        calls := calls s |}).

(** The answer object itself, as [return answers] hands it out. *)
Definition currentAnswers : Run Answers := fun s => (Normal (answers s), s).

(** [testCondition(condition, answers)] on the answer object as it is now. *)
Definition evalCondition (c : QuestionCondition) : Run bool :=
  fun s => (Normal (testCondition c (answers s)), s).

(** [await act(value)] for the validator of question [q]. *)
Definition callAction (q : string) (act : QuestionAction)
    (value : option Answer) : Run CheckResult :=
  fun s =>
    (Normal (settle (act value)),
     {| answers := answers s; calls := calls s ++ [ActionCall q value] |}).

(** [transform(value)], awaited when it is a promise. *)
Definition callTransform (q : string) (transform : ResultTransform)
    (value : Answer) : Run (option Answer) :=
  fun s =>
    (Normal (settle (transform value)),
     {| answers := answers s; calls := calls s ++ [TransformCall q value] |}).

(** [for (const x of l) body]; [continue] is the normal end of a body. *)
Fixpoint forOf {A : Type} (l : list A) (body : A -> Run unit) : Run unit :=
  match l with
  | [] => mret tt
  | x :: rest => body x ;; forOf rest body
  end.

Definition continue : Run unit := mret tt.

(** ** Strings and arrays of the source *)

(** The double quote character, code 34. *)
Definition dquote : string :=
  String (Ascii.Ascii false true false false false true false false)
    EmptyString.

(** [`Missing answer "${name}"!`]. *)
Definition missingAnswer (name : string) : string :=
  "Missing answer " +:+ dquote +:+ name +:+ dquote +:+ "!".

(** [`Extraneous answer "${name}" given!`]. *)
Definition extraneousAnswer (name : string) : string :=
  "Extraneous answer " +:+ dquote +:+ name +:+ dquote +:+ " given!".

(** [Array.prototype.indexOf] on an array of strings. *)
Fixpoint indexOfFrom (i : Z) (l : list string) (x : string) : Z :=
  match l with
  | [] => -1
  | y :: rest => if String.eqb y x then i else indexOfFrom (i + 1) rest x
  end.

Definition indexOf (l : list string) (x : string) : Z := indexOfFrom 0 l x.

(** ** The three passes over the question graph *)

Section Passes.

Context (lib : ActionsAndTransformers).

(** [questions.filter((qq) => qq.name === q.name)]. *)
Definition sameName (q : Question) : list Question :=
  List.filter (fun qq => String.eqb (name qq) (name q)) (questions lib).

(** The body of the loop of [checkAnswers]. *)
Definition checkAnswer (q : Question) : Run unit :=
  answer ← readAnswer (name q);
  conditionFulfilled ← evalCondition (condition q);
  if negb (optional q) && conditionFulfilled && isUndefined answer then
    throwError (missingAnswer (name q))
  else if negb conditionFulfilled && isDefined answer then
    if (0 <? length (sameName q))%nat then continue
    else throwError (extraneousAnswer (name q))
  else continue.

Definition checkAnswers : Run unit := forOf (questions lib) checkAnswer.

(** The body of the loop of [formatAnswers]. *)
Definition formatAnswer (q : Question) : Run unit :=
  conditionFulfilled ← evalCondition (condition q);
  if negb conditionFulfilled then continue
  else
    current ← readAnswer (name q);
    match current, resultTransform q with
    | Some value, Some transform =>
        transformed ← callTransform (name q) transform value;
        writeAnswer (name q) transformed
    | _, _ => continue
    end.

Definition formatAnswers : Run Answers :=
  forOf (questions lib) formatAnswer ;; currentAnswers.

(** The body of the loop of [validateAnswers]. *)
Definition validateAnswer (disableValidation : list string) (q : Question)
  : Run unit :=
  conditionFulfilled ← evalCondition (condition q);
  if negb conditionFulfilled then continue
  else
    match action q with
    | None => continue
    | Some act =>
        if indexOf disableValidation (name q) >? -1 then continue
        else
          value ← readAnswer (name q);
          testResult ← callAction (name q) act value;
          match testResult with
          | CheckString message => throwError message
          | CheckTrue => continue
          end
    end.

(** The default of the second parameter, [[]], is passed by the caller. *)
Definition validateAnswers (disableValidation : list string) : Run unit :=
  forOf (questions lib) (validateAnswer disableValidation).

End Passes.

(** ** Static defaults *)

Definition getDefaultAnswer (key : string) : option Answer :=
  if String.eqb key "adapterSettings" then
    Some (Settings [
      BooleanAdapterSettings "option1" None (Some true);
      StringAdapterSettings "option2" None (Some "42")
    ])
  else if String.eqb key "keywords" then
    Some (Array [AString "ioBroker"; AString "template";
                 AString "Smart Home"; AString "home automation"])
  else None.

(** ** Migration: inferring answers from an existing project *)

(** Text as JavaScript has it: a sequence of UTF-16 code units. *)
Abbreviation JsText := (list N).

Definition codeUnits (s : string) : JsText :=
  map Ascii.N_of_ascii (String.list_ascii_of_string s).

(** [String.prototype.endsWith]: the search string must fit, and the last
    [searchLength] characters must be the search string. *)
Definition endsWith (s searchString : string) : bool :=
  let len := String.length s in
  let searchLength := String.length searchString in
  if (len <? searchLength)%nat then false
  else String.eqb (String.substring (len - searchLength) searchLength s) searchString.

(** An entry of [instanceObjects].  [_id] is [None] when the entry has no
    [_id] or one that is not a string; neither is ever [===] to a string. *)
Record InstanceObject : Type := { _id : option string }.

(** The part of the parsed [io-package.json] that the functions below read;
    [instanceObjects] may be missing. *)
Record IoPackageJson : Type := {
  instanceObjects : option (list InstanceObject);
}.

(** Modelled from the spec: [MigrationContext] lives in
    [./migrationContext], which is not part of the sources at hand.  The
    specification describes it as a read-only view over an existing project;
    the view is given here by what it shows: the parsed adapter manifest, for
    each directory the files it holds ([None] when there is no such
    directory), and the text of the main file. *)
Record MigrationContext : Type := {
  ioPackageJson : IoPackageJson;
  directoryFiles : string -> option (list string);
  mainFileContent : JsText;
}.

(** Modelled from the spec: [hasFilesWithExtension(dir, ext, filter?)] of the
    absent [./migrationContext], "does a directory contain files with this
    extension (optionally filtered)". *)
Definition hasFilesWithExtension (ctx : MigrationContext) (dirName : string)
    (extension : string) (filter : option (string -> bool)) : bool :=
  match directoryFiles ctx dirName with
  | None => false
  | Some files =>
      existsb (fun f => endsWith f extension &&
                        match filter with Some keep => keep f | None => true end)
        files
  end.

(** Modelled from the spec: [getMainFileContent()] of the absent
    [./migrationContext], the text of the designated entry-point file. *)
Definition getMainFileContent (ctx : MigrationContext) : JsText :=
  mainFileContent ctx.

(** The regular expression [/^[ \t]*class/gm], read off its three parts.
    With the [m] flag, [^] holds at the start of the text and after every
    line terminator of the language. *)
Definition isLineTerminator (c : N) : bool :=
  ((c =? 10) || (c =? 13) || (c =? 8232) || (c =? 8233))%N.

(** The character class [[ \t]]. *)
Definition isSpaceOrTab (c : N) : bool := ((c =? 32) || (c =? 9))%N.

(** The literal part of a pattern at the head of the text. *)
Fixpoint startsWithUnits (literal text : JsText) : bool :=
  match literal, text with
  | [], _ => true
  | _ :: _, [] => false
  | a :: literal', b :: text' => (a =? b)%N && startsWithUnits literal' text'
  end.

(** [[ \t]*], greedy. *)
Fixpoint skipSpacesAndTabs (text : JsText) : JsText :=
  match text with
  | c :: rest => if isSpaceOrTab c then skipSpacesAndTabs rest else text
  | [] => []
  end.

(** [[ \t]*class] at the head of the text.  Giving back some of the blanks
    never helps, since the literal does not start with a blank. *)
Definition classAtHead (text : JsText) : bool :=
  startsWithUnits (codeUnits "class") (skipSpacesAndTabs text).

(** The search for a match, position by position; [lineStart] tells whether
    [^] holds at the head of what is left. *)
Fixpoint classLineFrom (lineStart : bool) (text : JsText) : bool :=
  (lineStart && classAtHead text) ||
  match text with
  | [] => false
  | c :: rest => classLineFrom (isLineTerminator c) rest
  end.

(** [text.match(/^[ \t]*class/gm)] is truthy: there is at least one match. *)
Definition matchesClassLine (text : JsText) : bool := classLineFrom true text.

(** [migrate] of the question [language]. *)
Definition language_migrate (ctx : MigrationContext) : AnswerValue :=
  if hasFilesWithExtension ctx "src" ".ts"
       (Some (fun f => negb (endsWith f ".d.ts")))
  then AString "TypeScript"
  else AString "JavaScript".

(** [migrate] of the question [es6class]. *)
Definition es6class_migrate (ctx : MigrationContext) : AnswerValue :=
  if matchesClassLine (getMainFileContent ctx) then AString "yes"
  else AString "no".

(** [migrate] of the question [connectionIndicator].  [?.some] on a missing
    [instanceObjects] gives [undefined], which is falsy. *)
Definition connectionIndicator_migrate (ctx : MigrationContext) : AnswerValue :=
  let found :=
    match instanceObjects (ioPackageJson ctx) with
    | None => false
    | Some objects =>
        existsb (fun o => match _id o with
                          | Some id => String.eqb id "info.connection"
                          | None => false
                          end) objects
    end in
  if found then AString "yes" else AString "no".

(** ** The passes in the words of the specification *)

(** Section 4.3: a question's transform applies when its condition holds on
    the answer set as it is, its answer is defined and it has a transform;
    the answer is then replaced by the transformed value. *)
Definition applyTransform (q : Question) (current : Answers) : Answers :=
  match current !! name q, resultTransform q with
  | Some value, Some transform =>
      if testCondition (condition q) current then
        match settle (transform value) with
        | Some value' => <[name q := value']> current
        | None => delete (name q) current
        end
      else current
  | _, _ => current
  end.

(** Section 4.3: transforms run in declaration order, each on the answer set
    as the earlier ones left it. *)
Definition applyTransforms (qs : list Question) (initial : Answers) : Answers :=
  fold_left (fun current q => applyTransform q current) qs initial.

(** Section 4.4: the questions whose validator is consulted: active, carrying
    a validator, and not on the skip list. *)
Definition consulted (skip : list string) (current : Answers) (q : Question)
  : bool :=
  testCondition (condition q) current
  && match action q with Some _ => true | None => false end
  && negb (bool_decide (name q ∈ skip)).

(** What the validator of a question says about the current answer; a
    question without one raises no objection. *)
Definition verdict (current : Answers) (q : Question) : CheckResult :=
  match action q with
  | Some act => settle (act (current !! name q))
  | None => CheckTrue
  end.

(** The log entry of a consulted validator. *)
Definition actionCall (current : Answers) (q : Question) : Call :=
  ActionCall (name q) (current !! name q).

(** Section 4.2: a question is missing its answer when it is active, not
    optional and unanswered. *)
Definition missing (current : Answers) (q : Question) : bool :=
  testCondition (condition q) current && negb (optional q)
  && isUndefined (current !! name q).

(** A name is single-branch when exactly one question record carries it. *)
Definition branches (qs : list Question) (n : string) : nat :=
  length (List.filter (fun q => String.eqb (name q) n) qs).

(** ** Notions used in the statements *)

(** The end of a round of the validation loop, given the validator's word. *)
Definition afterVerdict (r : CheckResult) : Completion unit :=
  match r with
  | CheckString message => Throw message
  | CheckTrue => Normal tt
  end.

(** The pairs of question records with one name, the earlier record first. *)
Fixpoint clashes (qs : list Question) : list (Question * Question) :=
  match qs with
  | [] => []
  | q :: rest =>
      map (pair q) (List.filter (fun q' => String.eqb (name q) (name q')) rest)
      ++ clashes rest
  end.

(** Two conditions that cannot hold together. *)
Definition exclusive (c1 c2 : QuestionCondition) : Prop :=
  forall a : Answers, ~ (testCondition c1 a = true /\ testCondition c2 a = true).

(** Where [^] holds under the [m] flag: at the start of the text, and right
    after a line terminator. *)
Definition atLineStart (before : JsText) : Prop :=
  before = [] \/
  exists earlier c, before = earlier ++ [c] /\ isLineTerminator c = true.

(** ** Sample data for the examples *)

(** Sample projects: a TypeScript adapter written as a class that shows its
    connection state, and a JavaScript adapter without any of this.  In the
    first, [class] opens the second line, indented by a tab; in the second,
    the only [class] is inside the word [subclass]. *)
Definition typeScriptProject : MigrationContext := {|
  ioPackageJson :=
    {| instanceObjects :=
         Some [ {| _id := Some "info" |}; {| _id := Some "info.connection" |} ] |};
  directoryFiles := fun dir =>
    if String.eqb dir "src" then Some ["main.ts"; "lib/adapter-config.d.ts"]
    else None;
  mainFileContent := [47; 47; 10; 9]%N ++ codeUnits "class Adapter {}";
|}.

Definition javaScriptProject : MigrationContext := {|
  ioPackageJson := {| instanceObjects := None |};
  directoryFiles := fun dir =>
    if String.eqb dir "src" then Some ["lib/adapter-config.d.ts"] else None;
  mainFileContent := codeUnits "const subclass = 1;";
|}.

(** A stand-in for [./actionsAndTransformers] in which the validators of
    [adapterName] and [title] both object, and [keywords] is split at its
    comma by the transform. *)
Definition sampleLib : ActionsAndTransformers := {|
  checkAdapterName := fun _ => Plain (CheckString "Please enter a name!");
  checkAuthorName := fun _ => Plain CheckTrue;
  checkEmail := fun _ => Promised CheckTrue;
  checkMinSelections := fun _ _ _ => Plain CheckTrue;
  checkTitle := fun _ => Promised (CheckString "Please enter a title!");
  checkTypeScriptTools := fun _ => Plain CheckTrue;
  transformAdapterName := fun a => Plain (Some a);
  transformContributors := fun a => Plain (Some a);
  transformDescription := fun a => Promised (Some a);
  transformKeywords := fun _ => Plain (Some (Array [AString "a"; AString "b"]))
|}.

Definition session (a : Answers) : Session := {| answers := a; calls := [] |}.

(** Only the adapter feature is chosen; no name, no title. *)
Definition onlyFeatures : Answers :=
  {[ "features" := Array [AString "adapter"] ]}.

(** A name and the adapter feature, no title. *)
Definition nameNoTitle : Answers :=
  <["adapterName" := Scalar (AString "test-adapter")]> onlyFeatures.

(** A complete answer set of a VIS-only project that also carries a
    [startMode], a question asked of adapters only. *)
Definition visWithStartMode : Answers :=
  list_to_map [
    ("adapterName", Scalar (AString "test-adapter"));
    ("title", Scalar (AString "Is used to test the creator"));
    ("features", Array [AString "vis"]);
    ("type", Scalar (AString "visualization-widgets"));
    ("startMode", Scalar (AString "daemon"));
    ("authorName", Scalar (AString "Al Calzone"));
    ("authorGithub", Scalar (AString "AlCalzone"));
    ("authorEmail", Scalar (AString "al@calzo.ne"));
    ("gitRemoteProtocol", Scalar (AString "HTTPS"));
    ("ci", Scalar (AString "gh-actions"));
    ("dependabot", Scalar (AString "yes"));
    ("license", Scalar (AString "MIT License"))
  ].

(** ** What the completeness check asks for *)

(** The answers that every answer set must hold. *)
Definition alwaysRequired : list string :=
  ["adapterName"; "title"; "features"; "type"; "authorName"; "authorGithub";
   "authorEmail"; "gitRemoteProtocol"; "license"; "ci"; "dependabot"].

(** The answers that an answer set with the adapter feature must hold too. *)
Definition adapterRequired : list string :=
  ["adminFeatures"; "startMode"; "connectionIndicator"; "language";
   "adminReact"; "indentation"; "quotes"; "es6class"].

(** An answer set that holds every answer its own content calls for. *)
Definition complete (a : Answers) : Prop :=
  Forall (fun n => is_Some (a !! n)) alwaysRequired /\
  (testSingleCondition adapterFeature a = true ->
   Forall (fun n => is_Some (a !! n)) adapterRequired) /\
  (a !! "startMode" = Some (Scalar (AString "schedule")) ->
   is_Some (a !! "scheduleStartOnChange")) /\
  (testSingleCondition (CondContains "adminFeatures" (AString "tab")) a = true ->
   is_Some (a !! "tabReact")) /\
  (a !! "language" = Some (Scalar (AString "JavaScript")) \/
   a !! "language" = Some (Scalar (AString "TypeScript")) ->
   is_Some (a !! "tools")) /\
  (a !! "cli" = Some (Scalar (ABool true)) -> is_Some (a !! "gitCommit")).

(** ** What the transformation pass does to each answer *)

(** The transform that the question graph attaches to a name. *)
Definition transformOf (lib : ActionsAndTransformers) (key : string)
  : option ResultTransform :=
  if String.eqb key "adapterName" then Some (transformAdapterName lib)
  else if String.eqb key "description" then Some (transformDescription lib)
  else if String.eqb key "keywords" then Some (transformKeywords lib)
  else if String.eqb key "contributors" then Some (transformContributors lib)
  else None.

(** The names that carry a transform, in declaration order. *)
Definition transformedNames : list string :=
  ["adapterName"; "description"; "keywords"; "contributors"].

(** The log entries of one round of the transformation loop. *)
Definition transformCall (q : Question) (current : Answers) : list Call :=
  match current !! name q, resultTransform q with
  | Some value, Some _ =>
      if testCondition (condition q) current
      then [TransformCall (name q) value] else []
  | _, _ => []
  end.

(** The log entries of the whole loop; each round sees the answers as the
    earlier rounds left them. *)
Fixpoint transformCalls (qs : list Question) (current : Answers) : list Call :=
  match qs with
  | [] => []
  | q :: rest =>
      transformCall q current ++ transformCalls rest (applyTransform q current)
  end.

(** ** The template of [.npmignore] *)

(** The fields of [Answers] that the template reads, at the types the
    interface gives them: [features] is always there, the others may be
    missing. *)
Record TemplateAnswers : Type := {
  features : list string;
  tools : option (list string);
  language : option string;
  adminReact : option string;
}.

(** The characters that [String.prototype.trim] removes, among those of the
    ASCII range; the text of the template has no others. *)
Definition isWhiteSpace (c : Ascii.ascii) : bool :=
  match Ascii.N_of_ascii c with
  | 9%N | 10%N | 11%N | 12%N | 13%N | 32%N => true
  | _ => false
  end.

Fixpoint trimStart (s : string) : string :=
  match s with
  | String c rest => if isWhiteSpace c then trimStart rest else s
  | EmptyString => EmptyString
  end.

(** What is left of a text when its trailing white space is removed. *)
Fixpoint trimEnd (s : string) : string :=
  match s with
  | EmptyString => EmptyString
  | String c rest =>
      match trimEnd rest with
      | EmptyString => if isWhiteSpace c then EmptyString
                       else String c EmptyString
      | kept => String c kept
      end
  end.

(** [String.prototype.trim]. *)
Definition trim (s : string) : string := trimEnd (trimStart s).

(** [answers.tools && answers.tools.indexOf(tool) > -1]: a missing [tools]
    is falsy. *)
Definition usesTool (answers : TemplateAnswers) (tool : string) : bool :=
  match tools answers with
  | Some selected => indexOf selected tool >? -1
  | None => false
  end.

(** The template function of [templates/_npmignore.ts]. *)
Definition templateFunction (answers : TemplateAnswers) : string :=
  let isAdapter := indexOf (features answers) "adapter" >? -1 in
  let useNyc := usesTool answers "code coverage" in
  let useTypeScript := bool_decide (language answers = Some "TypeScript") in
  let useTypeChecking := usesTool answers "type checking" in
  let useESLint := usesTool answers "ESLint" in
  let useReact := bool_decide (adminReact answers = Some "yes") in
  let template :=
"
.*
node_modules/
nbproject/
*.code-workspace
Thumbs.db
" +:+ (if isAdapter then "gulpfile.js" else EmptyString) +:+ "

# CI test files
test/
travis/
appveyor.yaml

" +:+ (if useTypeScript then "
# TypeScript sources and project configuration
src/" +:+ (if useReact then "
admin/src/" else EmptyString) +:+ "
tsconfig.json
tsconfig.*.json"
       else if useTypeChecking then "
# Type checking configuration
tsconfig.json
tsconfig.*.json" else EmptyString) +:+ "

" +:+ (if useTypeScript then "
# Sourcemaps
*.map
" else EmptyString) +:+ "

# npm package files
iobroker.*.tgz
package-lock.json

" +:+ (if useNyc then "
# NYC coverage files
coverage" else EmptyString) +:+ "
" +:+ (if useReact then EmptyString else "
# i18n intermediate files
admin/i18n
") +:+ "
# maintenance scripts
maintenance/**
" in
  trim template.

(** The lines of a text, split at line feeds. *)
Fixpoint splitLines (s : string) : list string :=
  match s with
  | EmptyString => [EmptyString]
  | String c rest =>
      if Ascii.eqb c (Ascii.ascii_of_nat 10) then EmptyString :: splitLines rest
      else match splitLines rest with
           | line :: more => String c line :: more
           | [] => [String c EmptyString]
           end
  end.

(** Answers of a TypeScript adapter with ESLint, as in the test-suite. *)
Definition sampleTemplateAnswers : TemplateAnswers := {|
  features := ["adapter"];
  tools := Some ["ESLint"];
  language := Some "TypeScript";
  adminReact := Some "no";
|}.

(** ** More migration functions *)

(** Modelled from the spec: [directoryExists(dir)] of the absent
    [./migrationContext], the directory-existence predicate. *)
Definition directoryExists (ctx : MigrationContext) (dirName : string) : bool :=
  match directoryFiles ctx dirName with Some _ => true | None => false end.

(** [.filter((f) => !!f)] on an array of names and [null]s: [null] and the
    empty string are falsy. *)
Definition truthy (entries : list (option string)) : list AnswerValue :=
  omap (fun entry =>
          match entry with
          | Some s => if String.eqb s EmptyString then None
                      else Some (AString s)
          | None => None
          end) entries.

(** [migrate] of the question [features]. *)
Definition features_migrate (ctx : MigrationContext) : list AnswerValue :=
  truthy [
    if directoryExists ctx "admin" then Some "adapter" else None;
    if directoryExists ctx "widgets" then Some "vis" else None
  ].

(** [migrate] of the question [adminReact]. *)
Definition adminReact_migrate (ctx : MigrationContext) : AnswerValue :=
  if hasFilesWithExtension ctx "admin/src" ".jsx"
       (Some (fun f => negb (endsWith f "tab.jsx")))
     || hasFilesWithExtension ctx "admin/src" ".tsx"
          (Some (fun f => negb (endsWith f "tab.tsx")))
  then AString "yes"
  else AString "no".

(** ** Properties of the monad and of the loop *)

Lemma forOf_app {A : Type} (l1 l2 : list A) (body : A -> Run unit) s :
  forOf (l1 ++ l2) body s =
  match forOf l1 body s with
  | (Normal _, s') => forOf l2 body s'
  | (Throw e, s') => (Throw e, s')
  end.
Proof.
  revert s. induction l1 as [|x l1 IH]; intros s; simpl; [done|].
  unfold mbind, Run_bind. destruct (body x s) as [[[]|e] s']; [apply IH|done].
Qed.

(** ** Properties of the helpers *)

Lemma indexOfFrom_found i l x :
  0 <= i -> (indexOfFrom i l x >? -1) = bool_decide (x ∈ l).
Proof.
  revert i. induction l as [|y l IH]; intros i Hi; cbn [indexOfFrom].
  - rewrite bool_decide_eq_false_2; [done|]. by intros ?%elem_of_nil.
  - destruct (String.eqb_spec y x) as [->|Hne].
    + rewrite bool_decide_eq_true_2 by left. apply Z.gtb_lt. lia.
    + rewrite IH by lia. apply bool_decide_ext. rewrite elem_of_cons.
      split; [by right | intros [?|?]; congruence].
Qed.

(** [l.indexOf(x) > -1] is membership. *)
Lemma indexOf_found l x : (indexOf l x >? -1) = bool_decide (x ∈ l).
Proof. by apply indexOfFrom_found. Qed.

Lemma missingAnswer_not_extraneous n n' : missingAnswer n <> extraneousAnswer n'.
Proof. unfold missingAnswer, extraneousAnswer. simpl. discriminate. Qed.

(** Every question of a list has a record of its own name in that list. *)
Lemma filter_same_name_nonempty (qs : list Question) q :
  q ∈ qs ->
  (0 < length (List.filter (fun qq => String.eqb (name qq) (name q)) qs))%nat.
Proof.
  induction 1 as [q qs|q q' qs _ IH]; simpl.
  - rewrite String.eqb_refl. simpl. lia.
  - destruct (String.eqb (name q') (name q)); simpl; lia.
Qed.

Lemma sameName_nonempty lib q :
  q ∈ questions lib -> (0 <? length (sameName lib q))%nat = true.
Proof. intros Hq. apply Nat.ltb_lt. by apply filter_same_name_nonempty. Qed.

(** ** The completeness check *)

Section CheckAnswers.

Context (lib : ActionsAndTransformers).

(** One round of the loop, for a question of the graph: it throws the
    missing-answer error or continues, and leaves the session alone.  The
    extraneous-answer branch always finds the question itself among the
    records of its name. *)
Lemma checkAnswer_outcome q s :
  q ∈ questions lib ->
  checkAnswer lib q s =
  (if missing (answers s) q then Throw (missingAnswer (name q))
   else Normal tt, s).
Proof.
  intros Hq. unfold checkAnswer, missing, mbind, Run_bind, readAnswer,
    evalCondition, continue, throwError, mret, Run_ret. simpl.
  rewrite (sameName_nonempty lib q Hq).
  destruct (testCondition (condition q) (answers s)), (optional q),
    (answers s !! name q); done.
Qed.

Lemma checkAnswers_loop qs s :
  qs ⊆ questions lib ->
  forOf qs (checkAnswer lib) s =
  (match List.find (missing (answers s)) qs with
   | Some q => Throw (missingAnswer (name q))
   | None => Normal tt
   end, s).
Proof.
  induction qs as [|q qs IH]; intros Hsub; simpl; [done|].
  unfold mbind, Run_bind. rewrite checkAnswer_outcome by set_solver.
  destruct (missing (answers s) q); [done|]. apply IH. set_solver.
Qed.

(** [checkAnswers] reports the first question that misses its answer, and
    nothing else. *)
Lemma checkAnswers_find s :
  checkAnswers lib s =
  (match List.find (missing (answers s)) (questions lib) with
   | Some q => Throw (missingAnswer (name q))
   | None => Normal tt
   end, s).
Proof. by apply checkAnswers_loop. Qed.

Lemma checkAnswers_never_extraneous s n :
  fst (checkAnswers lib s) <> Throw (extraneousAnswer n).
Proof.
  rewrite checkAnswers_find. cbn [fst].
  destruct (List.find (missing (answers s)) (questions lib)) as [q|].
  - intros H. apply (missingAnswer_not_extraneous (name q) n). congruence.
  - discriminate.
Qed.

End CheckAnswers.

Lemma missing_true a q :
  missing a q = true <->
  testCondition (condition q) a = true /\ optional q = false /\
  a !! name q = None.
Proof.
  unfold missing.
  destruct (testCondition (condition q) a), (optional q), (a !! name q);
    simpl; intuition congruence.
Qed.

(** The first element on which a test holds, as a split of the list. *)
Lemma find_first {A : Type} (f : A -> bool) (l1 : list A) x (l2 : list A) :
  Forall (fun y => f y = false) l1 -> f x = true ->
  List.find f (l1 ++ x :: l2) = Some x.
Proof.
  induction 1 as [|y l1 Hy _ IH]; intros Hx; simpl.
  - by rewrite Hx.
  - rewrite Hy. by apply IH.
Qed.

Lemma find_split {A : Type} (f : A -> bool) (l : list A) x :
  List.find f l = Some x ->
  exists l1 l2,
    l = l1 ++ x :: l2 /\ Forall (fun y => f y = false) l1 /\ f x = true.
Proof.
  induction l as [|y l IH]; simpl; [discriminate|].
  destruct (f y) eqn:Hy.
  - intros [= ->]. by exists [], l.
  - intros (l1 & l2 & -> & Hl1 & Hx)%IH.
    exists (y :: l1), l2. split; [done|]. split; [by constructor | done].
Qed.

Lemma append_cons c p t : String c p +:+ t = String c (p +:+ t).
Proof. reflexivity. Qed.

Lemma string_length_append p t :
  String.length (p +:+ t) = (String.length p + String.length t)%nat.
Proof.
  induction p as [|c p IH]; [done|]. rewrite append_cons. simpl. by rewrite IH.
Qed.

Lemma append_cancel_r p p' t : p +:+ t = p' +:+ t -> p = p'.
Proof.
  revert p'. induction p as [|c p IH]; intros [|c' p'] H.
  - done.
  - apply (f_equal String.length) in H.
    rewrite !string_length_append in H. simpl in H. lia.
  - apply (f_equal String.length) in H.
    rewrite !string_length_append in H. simpl in H. lia.
  - rewrite !append_cons in H. injection H as -> H. f_equal. by apply IH.
Qed.

(** The message of the missing-answer error tells the name. *)
Lemma missingAnswer_inj n n' : missingAnswer n = missingAnswer n' -> n = n'.
Proof.
  unfold missingAnswer. intros H.
  apply (inj (String.append _)) in H. apply (inj (String.append _)) in H.
  by apply append_cancel_r in H.
Qed.

(** C1.  The claim: when a single-branch question has a false condition and
    a defined answer, [checkAnswers] throws the extraneous-answer error, so
    no answer set that passes has such a question.  Evaluated on the code:
    the answer set [visWithStartMode] carries a [startMode], [startMode] is
    the name of exactly one question, that question's condition is false
    there, and [checkAnswers] still returns normally. *)
Theorem checkAnswers_accepts_extraneous_startMode lib :
  branches (questions lib) "startMode" = 1%nat /\
  (exists q, q ∈ questions lib /\ name q = "startMode" /\
             testCondition (condition q) visWithStartMode = false) /\
  is_Some (visWithStartMode !! "startMode") /\
  checkAnswers lib (session visWithStartMode)
  = (Normal tt, session visWithStartMode).
Proof.
  split; [reflexivity|]. split; [|split].
  - exists {| name := "startMode"; condition := OneCondition adapterFeature;
              optional := false; resultTransform := None; action := None |}.
    split; [|by vm_compute].
    apply list_elem_of_lookup. by exists 11%nat.
  - eexists. vm_compute. reflexivity.
  - rewrite checkAnswers_find. by vm_compute.
Qed.

(** C2, as stated, fails: an answer set that omits [title] while [features]
    contains ["adapter"] need not be reported as missing [title].  When
    [adapterName] is missing too, the error names [adapterName]. *)
Lemma checkAnswers_names_adapterName_before_title :
  ~ (forall lib s,
       answers s !! "title" = None ->
       testCondition (OneCondition adapterFeature) (answers s) = true ->
       fst (checkAnswers lib s) = Throw (missingAnswer "title")).
Proof.
  intros H.
  specialize (H sampleLib (session onlyFeatures) eq_refl eq_refl).
  rewrite checkAnswers_find in H. vm_compute in H. discriminate.
Qed.

(** C2, amended.  [checkAnswers] throws a missing-answer error exactly when
    some question is active, not optional and unanswered; the name in the
    message is that of the first such question in declaration order; so an
    answer set that has an [adapterName], omits [title] and selects the
    adapter feature is rejected with the missing-answer error naming
    [title]. *)
Theorem checkAnswers_missing_answer lib s :
  ((exists n, fst (checkAnswers lib s) = Throw (missingAnswer n)) <->
   (exists q, q ∈ questions lib /\
              testCondition (condition q) (answers s) = true /\
              optional q = false /\ answers s !! name q = None)) /\
  (forall n,
     fst (checkAnswers lib s) = Throw (missingAnswer n) <->
     exists qs1 q qs2,
       questions lib = qs1 ++ q :: qs2 /\ name q = n /\
       Forall (fun q' => missing (answers s) q' = false) qs1 /\
       missing (answers s) q = true) /\
  (is_Some (answers s !! "adapterName") ->
   answers s !! "title" = None ->
   testCondition (OneCondition adapterFeature) (answers s) = true ->
   fst (checkAnswers lib s) = Throw (missingAnswer "title")).
Proof.
  rewrite checkAnswers_find. cbn [fst]. split; [split|split].
  - intros [n Hn].
    destruct (List.find (missing (answers s)) (questions lib)) as [q|] eqn:Hf;
      [|discriminate].
    apply find_some in Hf as [Hin Hq].
    exists q. split; [by apply list_elem_of_In|]. by apply missing_true.
  - intros (q & Hin & Hq).
    destruct (List.find (missing (answers s)) (questions lib)) as [q'|] eqn:Hf.
    + by exists (name q').
    + apply list_elem_of_In in Hin.
      apply (find_none _ _ Hf) in Hin.
      apply missing_true in Hq. congruence.
  - intros n. split.
    + destruct (List.find (missing (answers s)) (questions lib)) as [q|] eqn:Hf;
        [|discriminate].
      intros H.
      assert (missingAnswer (name q) = missingAnswer n) as Hn%missingAnswer_inj
        by congruence.
      apply find_split in Hf as (qs1 & qs2 & Hqs & Hqs1 & Hq).
      by exists qs1, q, qs2.
    + intros (qs1 & q & qs2 & -> & <- & Hqs1 & Hq).
      by rewrite (find_first _ _ _ _ Hqs1 Hq).
  - intros [v Hname] Htitle _.
    unfold questions, questionsAndText.
    cbn [List.filter isQuestionOrGroup map questionsOf fold_left app
         List.find].
    unfold missing. cbn [name condition optional testCondition].
    by rewrite Hname, Htitle.
Qed.

(** The scenario of C2 on a concrete answer set. *)
Lemma checkAnswers_missing_answer_witness :
  fst (checkAnswers sampleLib (session nameNoTitle))
  = Throw (missingAnswer "title").
Proof.
  apply (proj2 (proj2 (checkAnswers_missing_answer sampleLib
                         (session nameNoTitle)))).
  - eexists. vm_compute. reflexivity.
  - by vm_compute.
  - by vm_compute.
Defined.

(** C6.  The name [type] is carried by two question records, and no answer
    set makes [checkAnswers] throw the extraneous-answer error for [type],
    in particular none with a defined [type] and an inactive [type] branch;
    the same holds for every name carried by more than one record. *)
Theorem checkAnswers_multi_branch_exempt lib s :
  branches (questions lib) "type" = 2%nat /\
  (forall q, q ∈ questions lib -> name q = "type" ->
             testCondition (condition q) (answers s) = false ->
             is_Some (answers s !! "type") ->
             fst (checkAnswers lib s) <> Throw (extraneousAnswer "type")) /\
  (forall n, (1 < branches (questions lib) n)%nat ->
             fst (checkAnswers lib s) <> Throw (extraneousAnswer n)).
Proof.
  split; [reflexivity|].
  split; intros; apply checkAnswers_never_extraneous.
Qed.

(** The scenario of C6 on a concrete answer set: a VIS-only project with a
    [type], seen from the adapter branch of [type]. *)
Lemma checkAnswers_multi_branch_exempt_witness :
  fst (checkAnswers sampleLib (session visWithStartMode))
  <> Throw (extraneousAnswer "type").
Proof.
  apply (proj1 (proj2 (checkAnswers_multi_branch_exempt sampleLib
                         (session visWithStartMode)))
           {| name := "type"; condition := OneCondition adapterFeature;
              optional := false; resultTransform := None; action := None |}).
  - apply list_elem_of_lookup. by exists 9%nat.
  - reflexivity.
  - by vm_compute.
  - eexists. vm_compute. reflexivity.
Defined.

(** ** The validation pass *)

(** One round of the loop: a question that is not consulted is passed over
    in silence; a consulted one has its validator called, once, with the
    current answer. *)
Lemma validateAnswer_outcome dv q a cs :
  validateAnswer dv q {| answers := a; calls := cs |} =
  if consulted dv a q then
    (afterVerdict (verdict a q),
     {| answers := a; calls := cs ++ [actionCall a q] |})
  else (Normal tt, {| answers := a; calls := cs |}).
Proof.
  unfold validateAnswer, consulted, verdict, actionCall, mbind, Run_bind,
    evalCondition, readAnswer, callAction, continue, throwError, mret, Run_ret.
  cbv beta iota delta [answers calls]. rewrite indexOf_found.
  destruct (testCondition (condition q) a); [|done].
  destruct (action q) as [act|]; [|done].
  destruct (bool_decide (name q ∈ dv)); [done|].
  cbv beta iota delta [negb andb answers calls].
  by destruct (settle (act (a !! name q))).
Qed.

(** As long as no consulted validator objects, the loop runs to its end and
    has called the validators of the consulted questions, in order. *)
Lemma validate_loop_pass dv qs a cs :
  Forall (fun q => consulted dv a q = true -> verdict a q = CheckTrue) qs ->
  forOf qs (validateAnswer dv) {| answers := a; calls := cs |} =
  (Normal tt,
   {| answers := a;
      calls := cs ++ map (actionCall a) (List.filter (consulted dv a) qs) |}).
Proof.
  intros H. revert cs.
  induction H as [|q qs Hq _ IH]; intros cs; simpl.
  - by rewrite app_nil_r.
  - unfold mbind, Run_bind. rewrite validateAnswer_outcome.
    destruct (consulted dv a q); [|apply IH].
    rewrite (Hq eq_refl). cbn [afterVerdict]. rewrite IH.
    by rewrite <- app_assoc.
Qed.

(** The loop stops at the first consulted question whose validator objects,
    with that validator's message, and calls nothing after it. *)
Lemma validate_loop_fail dv qs1 q qs2 message a cs :
  Forall (fun q' => consulted dv a q' = true -> verdict a q' = CheckTrue) qs1 ->
  consulted dv a q = true ->
  verdict a q = CheckString message ->
  forOf (qs1 ++ q :: qs2) (validateAnswer dv) {| answers := a; calls := cs |} =
  (Throw message,
   {| answers := a;
      calls := cs ++ map (actionCall a)
                       (List.filter (consulted dv a) (qs1 ++ [q])) |}).
Proof.
  intros Hqs1 Hq Hv.
  rewrite forOf_app, (validate_loop_pass _ _ _ _ Hqs1). simpl.
  unfold mbind, Run_bind. rewrite validateAnswer_outcome, Hq, Hv.
  cbn [afterVerdict]. rewrite List.filter_app, map_app. simpl. rewrite Hq.
  by rewrite <- app_assoc.
Qed.

(** C3.  [validateAnswers] walks the questions in declaration order and
    consults the validator of every question that is active, has one, and is
    not named in [disableValidation].  At the first consulted question whose
    validator returns a string it throws an error with exactly that string,
    having called the validators of the consulted questions up to that one
    and no other; when no consulted validator returns a string it returns
    normally. *)
Theorem validateAnswers_fail_fast lib disableValidation s :
  (forall qs1 q qs2 message,
     questions lib = qs1 ++ q :: qs2 ->
     Forall (fun q' => consulted disableValidation (answers s) q' = true ->
                       verdict (answers s) q' = CheckTrue) qs1 ->
     consulted disableValidation (answers s) q = true ->
     verdict (answers s) q = CheckString message ->
     validateAnswers lib disableValidation s =
     (Throw message,
      {| answers := answers s;
         calls := calls s ++
                  map (actionCall (answers s))
                    (List.filter (consulted disableValidation (answers s))
                       (qs1 ++ [q])) |})) /\
  (Forall (fun q => consulted disableValidation (answers s) q = true ->
                    verdict (answers s) q = CheckTrue) (questions lib) ->
   validateAnswers lib disableValidation s =
   (Normal tt,
    {| answers := answers s;
       calls := calls s ++
                map (actionCall (answers s))
                  (List.filter (consulted disableValidation (answers s))
                     (questions lib)) |})).
Proof.
  destruct s as [a cs]. unfold validateAnswers. cbn [answers calls]. split.
  - intros qs1 q qs2 message -> Hqs1 Hq Hv. by apply validate_loop_fail.
  - apply validate_loop_pass.
Qed.

(** Two active questions with objecting validators, [adapterName] and
    [title]: only the message of the first is surfaced, and only its
    validator has been called. *)
Lemma validateAnswers_fail_fast_witness :
  validateAnswers sampleLib [] (session nameNoTitle) =
  (Throw "Please enter a name!",
   {| answers := nameNoTitle;
      calls := [ActionCall "adapterName"
                  (Some (Scalar (AString "test-adapter")))] |}).
Proof.
  etrans.
  { apply (proj1 (validateAnswers_fail_fast sampleLib []
                    (session nameNoTitle))
             [] {| name := "adapterName"; condition := NoCondition;
                   optional := false;
                   resultTransform := Some (transformAdapterName sampleLib);
                   action := Some (checkAdapterName sampleLib) |}
             (tail (questions sampleLib)) "Please enter a name!").
    - reflexivity.
    - constructor.
    - by vm_compute.
    - by vm_compute. }
  by vm_compute.
Defined.

(** The validation loop never touches the answer object, however it ends. *)
Lemma validate_loop_frame dv qs a cs :
  answers (snd (forOf qs (validateAnswer dv) {| answers := a; calls := cs |}))
  = a.
Proof.
  revert cs. induction qs as [|q qs IH]; intros cs; simpl; [done|].
  unfold mbind, Run_bind. rewrite validateAnswer_outcome.
  destruct (consulted dv a q); [|apply IH].
  destruct (verdict a q); cbn [afterVerdict]; [apply IH|done].
Qed.

(** C9.  [checkAnswers] and [validateAnswers] leave the answer set as they
    found it: every name reads the same before and after the call, whether
    the call returns or throws. *)
Theorem checkAnswers_validateAnswers_frame lib disableValidation s key :
  answers (snd (checkAnswers lib s)) !! key = answers s !! key /\
  answers (snd (validateAnswers lib disableValidation s)) !! key
  = answers s !! key.
Proof.
  split.
  - by rewrite checkAnswers_find.
  - destruct s as [a cs]. unfold validateAnswers.
    by rewrite validate_loop_frame.
Qed.

(** ** The transformation pass *)

(** One round of the loop never throws and does to the answer object what
    [applyTransform] says. *)
Lemma formatAnswer_outcome q s :
  fst (formatAnswer q s) = Normal tt /\
  answers (snd (formatAnswer q s)) = applyTransform q (answers s).
Proof.
  destruct s as [a cs].
  unfold formatAnswer, applyTransform, mbind, Run_bind, evalCondition,
    readAnswer, callTransform, writeAnswer, continue, mret, Run_ret.
  cbn -[lookup insert delete testCondition settle].
  destruct (testCondition (condition q) a);
    cbn -[lookup insert delete testCondition settle].
  - destruct (a !! name q) as [value|]; [|done].
    destruct (resultTransform q) as [transform|]; [|done].
    cbn -[lookup insert delete testCondition settle].
    by destruct (settle (transform value)).
  - by destruct (a !! name q), (resultTransform q).
Qed.

Lemma format_loop qs s :
  fst (forOf qs formatAnswer s) = Normal tt /\
  answers (snd (forOf qs formatAnswer s)) = applyTransforms qs (answers s).
Proof.
  revert s. induction qs as [|q qs IH]; intros s; simpl; [done|].
  unfold mbind, Run_bind.
  destruct (formatAnswer_outcome q s) as [Hr Ha].
  destruct (formatAnswer q s) as [[[]|e] s']; [|discriminate].
  cbn [fst snd] in Ha. rewrite <- Ha. apply IH.
Qed.

Lemma applyTransforms_split qs1 q qs2 a :
  applyTransforms (qs1 ++ q :: qs2) a
  = applyTransforms qs2 (applyTransform q (applyTransforms qs1 a)).
Proof. unfold applyTransforms. by rewrite fold_left_app. Qed.

(** C4.  [formatAnswers] is one pass over the questions in declaration
    order.  It returns the answer object, which by then is the outcome of
    applying, question after question, the transform of each question whose
    condition holds on the answers as the earlier transforms left them,
    whose answer is defined and which has a transform; the value stored is
    the settled (awaited) result. *)
Theorem formatAnswers_single_pass lib s :
  fst (formatAnswers lib s)
  = Normal (applyTransforms (questions lib) (answers s)) /\
  answers (snd (formatAnswers lib s))
  = applyTransforms (questions lib) (answers s) /\
  (forall qs1 q qs2 a,
     applyTransforms (qs1 ++ q :: qs2) a
     = applyTransforms qs2 (applyTransform q (applyTransforms qs1 a))).
Proof.
  unfold formatAnswers, mbind, Run_bind, currentAnswers.
  destruct (format_loop (questions lib) s) as [Hr Ha].
  destruct (forOf (questions lib) formatAnswer s) as [[[]|e] s'];
    [|discriminate].
  cbn [fst snd] in *. rewrite Ha.
  split; [done|]. split; [done|]. apply applyTransforms_split.
Qed.

(** A run of the pass: the [keywords] text is replaced by the list its
    transform makes of it, and the two transforms that apply are the ones
    that were called. *)
Example formatAnswers_keywords :
  let a := <["keywords" := Scalar (AString "a,b")]> nameNoTitle in
  formatAnswers sampleLib (session a) =
  (Normal (<["keywords" := Array [AString "a"; AString "b"]]> nameNoTitle),
   {| answers := <["keywords" := Array [AString "a"; AString "b"]]> nameNoTitle;
      calls := [TransformCall "adapterName" (Scalar (AString "test-adapter"));
                TransformCall "keywords" (Scalar (AString "a,b"))] |}).
Proof. by vm_compute. Qed.

(** ** The condition evaluator *)

Lemma testCondition_all cs a :
  testCondition (AllConditions cs) a = true <->
  Forall (fun c => testSingleCondition c a = true) cs.
Proof.
  cbn [testCondition]. rewrite forallb_forall, Forall_forall.
  split; intros H c Hc; apply H; by apply list_elem_of_In.
Qed.

Lemma strictEquals_true x v :
  strictEquals x v = true <-> x = Some (Scalar v).
Proof.
  unfold strictEquals. destruct x as [[w| | |]|]; try (split; congruence).
  rewrite bool_decide_eq_true. split; congruence.
Qed.

(** C8.  The condition evaluator is a total function into the booleans; a
    list of conditions is the conjunction of its members; and when the
    answer a condition refers to is absent, a [value] condition (scalar or
    array) and a [contains] condition are false while a [doesNotContain]
    condition is true. *)
Theorem testCondition_total condition answers :
  (testCondition condition answers = true \/
   testCondition condition answers = false) /\
  (forall cs, testCondition (AllConditions cs) answers = true <->
              Forall (fun c => testSingleCondition c answers = true) cs) /\
  (forall n v vs x,
     answers !! n = None ->
     testCondition (OneCondition (CondValue n v)) answers = false /\
     testCondition (OneCondition (CondValueOneOf n vs)) answers = false /\
     testCondition (OneCondition (CondContains n x)) answers = false /\
     testCondition (OneCondition (CondDoesNotContain n x)) answers = true).
Proof.
  split; [destruct (testCondition condition answers); auto|].
  split; [intros cs; apply testCondition_all|].
  intros n v vs x Hn. cbn [testCondition testSingleCondition]. rewrite Hn.
  repeat split; try done.
  induction vs as [|w vs IH]; [done|]. cbn [existsb strictEquals orb]. exact IH.
Qed.

(** On the empty answer set every referenced answer is absent. *)
Lemma testCondition_total_witness :
  testCondition (OneCondition (CondValue "cli" (ABool false))) ∅ = false /\
  testCondition
    (OneCondition (CondValueOneOf "cli" [ABool false; ABool true])) ∅ = false /\
  testCondition (OneCondition adapterFeature) ∅ = false /\
  testCondition
    (OneCondition (CondDoesNotContain "features" (AString "adapter"))) ∅ = true.
Proof.
  destruct (testCondition_total NoCondition ∅) as (_ & _ & H).
  destruct (H "cli" (ABool false) [ABool false; ABool true] (ABool false)
              (lookup_empty _)) as (H1 & H2 & _).
  destruct (H "features" (ABool false) [] (AString "adapter")
              (lookup_empty _)) as (_ & _ & H3 & H4).
  exact (conj H1 (conj H2 (conj H3 H4))).
Defined.

(** ** Branches that share a name *)

Lemma clashes_complete qs i j qi qj :
  qs !! i = Some qi -> qs !! j = Some qj -> (i < j)%nat ->
  name qi = name qj -> (qi, qj) ∈ clashes qs.
Proof.
  revert i j. induction qs as [|q qs IH]; intros i j Hi Hj Hlt Hn; [done|].
  cbn [clashes]. apply elem_of_app.
  destruct j as [|j]; [lia|]. destruct i as [|i].
  - left. injection Hi as ->. apply list_elem_of_fmap. exists qj. split; [done|].
    apply list_elem_of_In, filter_In. split.
    + apply list_elem_of_In. by eapply list_elem_of_lookup_2.
    + by apply String.eqb_eq.
  - right. apply (IH i j); [done|done|lia|done].
Qed.

Lemma exclusive_sym c1 c2 : exclusive c1 c2 -> exclusive c2 c1.
Proof. intros H a [H1 H2]. by apply (H a). Qed.

Lemma contains_excludes_doesNotContain n x :
  exclusive (OneCondition (CondContains n x))
            (OneCondition (CondDoesNotContain n x)).
Proof.
  intros a. cbn [testCondition testSingleCondition].
  destruct (a !! n) as [[| vs | |]|]; try (intros [? ?]; discriminate).
  destruct (bool_decide (x ∈ vs)); intros [? ?]; discriminate.
Qed.

Lemma value_excludes_other_value n v w :
  v <> w -> exclusive (OneCondition (CondValue n v)) (OneCondition (CondValue n w)).
Proof.
  intros Hne a. cbn [testCondition testSingleCondition].
  rewrite !strictEquals_true. intros [H1 H2]. congruence.
Qed.

Lemma clashes_exclusive lib q1 q2 :
  (q1, q2) ∈ clashes (questions lib) -> exclusive (condition q1) (condition q2).
Proof.
  intros H. vm_compute in H.
  apply list_elem_of_In in H. destruct H as [H|[H|[]]]; injection H as <- <-.
  - apply contains_excludes_doesNotContain.
  - by apply value_excludes_other_value.
Qed.

(** C7.  No answer set makes two question records of one name active
    together; in particular not the two [type] branches (the adapter feature
    is contained, or is not) nor the two [tools] branches ([language] is
    JavaScript, or TypeScript). *)
Theorem same_name_branches_exclusive lib a :
  (forall i j qi qj,
     questions lib !! i = Some qi -> questions lib !! j = Some qj ->
     i <> j -> name qi = name qj ->
     ~ (testCondition (condition qi) a = true /\
        testCondition (condition qj) a = true)) /\
  ~ (testCondition (OneCondition adapterFeature) a = true /\
     testCondition
       (OneCondition (CondDoesNotContain "features" (AString "adapter"))) a
     = true) /\
  ~ (testCondition
       (OneCondition (CondValue "language" (AString "JavaScript"))) a = true /\
     testCondition
       (OneCondition (CondValue "language" (AString "TypeScript"))) a = true).
Proof.
  split; [|split].
  - intros i j qi qj Hi Hj Hne Hn.
    destruct (decide (i < j)%nat) as [Hlt|Hge].
    + by apply (clashes_exclusive lib), (clashes_complete _ i j).
    + apply exclusive_sym, (clashes_exclusive lib), (clashes_complete _ j i);
        [done|done|lia|done].
  - apply contains_excludes_doesNotContain.
  - by apply value_excludes_other_value.
Qed.

(** The two [type] records, at positions 9 and 10 of the graph, on an answer
    set that selects the adapter feature. *)
Lemma same_name_branches_exclusive_witness :
  ~ (testCondition (OneCondition adapterFeature) onlyFeatures = true /\
     testCondition
       (OneCondition (CondDoesNotContain "features" (AString "adapter")))
       onlyFeatures = true).
Proof.
  apply (proj1 (same_name_branches_exclusive sampleLib onlyFeatures)
           9%nat 10%nat
           {| name := "type"; condition := OneCondition adapterFeature;
              optional := false; resultTransform := None; action := None |}
           {| name := "type";
              condition :=
                OneCondition (CondDoesNotContain "features" (AString "adapter"));
              optional := false; resultTransform := None; action := None |}).
  - reflexivity.
  - reflexivity.
  - lia.
  - reflexivity.
Defined.

(** ** Static defaults *)

(** C10.  [getDefaultAnswer] is defined for exactly two keys: for
    [adapterSettings] it gives the checkbox [option1] defaulting to [true]
    followed by the text [option2] defaulting to ["42"], for [keywords] the
    four fixed keywords, and for every other key nothing. *)
Theorem getDefaultAnswer_exactly_two key :
  getDefaultAnswer "adapterSettings"
  = Some (Settings [BooleanAdapterSettings "option1" None (Some true);
                    StringAdapterSettings "option2" None (Some "42")]) /\
  getDefaultAnswer "keywords"
  = Some (Array [AString "ioBroker"; AString "template"; AString "Smart Home";
                 AString "home automation"]) /\
  (is_Some (getDefaultAnswer key) <->
   key = "adapterSettings" \/ key = "keywords").
Proof.
  split; [reflexivity|]. split; [reflexivity|].
  unfold getDefaultAnswer.
  destruct (String.eqb_spec key "adapterSettings") as [->|H1].
  { split; [by left | by eexists]. }
  destruct (String.eqb_spec key "keywords") as [->|H2].
  { split; [by right | by eexists]. }
  split; [intros [? ?]; discriminate | intros [?|?]; congruence].
Qed.

(** ** Migration functions *)

Lemma substring_whole s : String.substring 0 (String.length s) s = s.
Proof. induction s as [|c s IH]; simpl; [done|]. by rewrite IH. Qed.

Lemma substring_split s n m :
  (n + m)%nat = String.length s ->
  s = String.substring 0 n s +:+ String.substring n m s.
Proof.
  revert n. induction s as [|c s IH]; intros n H; simpl in H.
  - assert (n = 0%nat) as -> by lia. assert (m = 0%nat) as -> by lia. done.
  - destruct n as [|n].
    + simpl in H. subst m.
      change (String.substring 0 0 (String c s)) with EmptyString.
      change (S (String.length s)) with (String.length (String c s)).
      by rewrite substring_whole.
    + simpl. rewrite append_cons. f_equal. apply IH. lia.
Qed.

Lemma substring_after p t :
  String.substring (String.length p) (String.length t) (p +:+ t) = t.
Proof.
  induction p as [|c p IH]; [apply substring_whole|].
  rewrite append_cons. exact IH.
Qed.

(** [s.endsWith(t)] holds exactly when [s] is some text followed by [t]. *)
Lemma endsWith_spec s t : endsWith s t = true <-> exists p, s = p +:+ t.
Proof.
  unfold endsWith. split.
  - destruct (Nat.ltb_spec (String.length s) (String.length t)) as [|Hle];
      [discriminate|].
    intros H%String.eqb_eq.
    exists (String.substring 0 (String.length s - String.length t) s).
    pose proof (substring_split s (String.length s - String.length t)
                  (String.length t)) as Hs.
    rewrite H in Hs. apply Hs. lia.
  - intros [p ->]. rewrite string_length_append.
    destruct (Nat.ltb_spec (String.length p + String.length t)
                (String.length t)) as [|_]; [lia|].
    replace (String.length p + String.length t - String.length t)%nat
      with (String.length p) by lia.
    rewrite substring_after. apply String.eqb_refl.
Qed.

Lemma endsWith_false s t : endsWith s t = false <-> ~ exists p, s = p +:+ t.
Proof.
  rewrite <- endsWith_spec. destruct (endsWith s t); split; congruence.
Qed.

(** The literal part of the pattern. *)
Lemma startsWithUnits_spec literal text :
  startsWithUnits literal text = true <-> exists after, text = literal ++ after.
Proof.
  revert text. induction literal as [|a literal IH]; intros text; simpl.
  - split; [by exists text | done].
  - destruct text as [|b text].
    + split; [discriminate | intros [? ?]; discriminate].
    + rewrite andb_true_iff, N.eqb_eq, IH. split.
      * intros [-> [after ->]]. by exists after.
      * intros [after [= -> ->]]. split; [done | by exists after].
Qed.

(** The blanks that [[ \t]*] consumes, and what is left. *)
Lemma skipSpacesAndTabs_split text :
  exists blanks,
    text = blanks ++ skipSpacesAndTabs text /\
    Forall (fun c => isSpaceOrTab c = true) blanks.
Proof.
  induction text as [|c text (blanks & Heq & Hb)]; simpl.
  - by exists [].
  - destruct (isSpaceOrTab c) eqn:Hc.
    + exists (c :: blanks). split; [simpl; by f_equal | by constructor].
    + by exists [].
Qed.

Lemma skipSpacesAndTabs_blanks blanks c rest :
  Forall (fun c => isSpaceOrTab c = true) blanks -> isSpaceOrTab c = false ->
  skipSpacesAndTabs (blanks ++ c :: rest) = c :: rest.
Proof.
  intros Hb Hc. induction Hb as [|b blanks Hbl _ IH]; simpl.
  - by rewrite Hc.
  - by rewrite Hbl.
Qed.

(** [[ \t]*class] matches at the head of a text exactly when the text is a
    run of spaces and tabs followed by [class]. *)
Lemma classAtHead_spec text :
  classAtHead text = true <->
  exists blanks after,
    text = blanks ++ codeUnits "class" ++ after /\
    Forall (fun c => isSpaceOrTab c = true) blanks.
Proof.
  unfold classAtHead. rewrite startsWithUnits_spec. split.
  - intros [after Hafter].
    destruct (skipSpacesAndTabs_split text) as (blanks & Heq & Hb).
    exists blanks, after. split; [|done]. by rewrite <- Hafter.
  - intros (blanks & after & -> & Hb). exists after.
    by apply (skipSpacesAndTabs_blanks blanks 99%N).
Qed.

Lemma classLineFrom_spec lineStart text :
  classLineFrom lineStart text = true <->
  (lineStart = true /\ classAtHead text = true) \/
  (exists earlier c rest,
     text = earlier ++ c :: rest /\ isLineTerminator c = true /\
     classAtHead rest = true).
Proof.
  revert lineStart. induction text as [|c text IH]; intros lineStart;
    cbn [classLineFrom]; rewrite orb_true_iff, andb_true_iff.
  - split; [intros [?|?]; [by left | discriminate]|].
    intros [?|(earlier & c & rest & H & _)]; [by left|].
    by destruct earlier.
  - rewrite IH. split.
    + intros [?|[[Hc Hh]|(earlier & c' & rest & -> & Hc' & Hh)]].
      * by left.
      * right. by exists [], c, text.
      * right. by exists (c :: earlier), c', rest.
    + intros [?|(earlier & c' & rest & Heq & Hc' & Hh)]; [by left|].
      right. destruct earlier as [|e earlier]; injection Heq as -> ->.
      * by left.
      * right. by exists earlier, c', rest.
Qed.

(** The regular expression of [es6class] finds a match exactly when some
    line of the text begins, after spaces and tabs only, with [class]. *)
Lemma matchesClassLine_spec text :
  matchesClassLine text = true <->
  exists before blanks after,
    text = before ++ blanks ++ codeUnits "class" ++ after /\
    atLineStart before /\
    Forall (fun c => isSpaceOrTab c = true) blanks.
Proof.
  unfold matchesClassLine. rewrite classLineFrom_spec. split.
  - intros [[_ Hh]|(earlier & c & rest & -> & Hc & Hh)];
      apply classAtHead_spec in Hh as (blanks & after & -> & Hb).
    + exists [], blanks, after. split; [done|]. split; [by left | done].
    + exists (earlier ++ [c]), blanks, after.
      split; [by rewrite <- app_assoc|]. split; [|done].
      right. by exists earlier, c.
  - intros (before & blanks & after & -> & [->|(earlier & c & -> & Hc)] & Hb).
    + left. split; [done|]. apply classAtHead_spec. by exists blanks, after.
    + right. exists earlier, c, (blanks ++ codeUnits "class" ++ after).
      split; [by rewrite <- app_assoc|]. split; [done|].
      apply classAtHead_spec. by exists blanks, after.
Qed.

(** C5.  For every migration context: [language] is inferred as TypeScript
    exactly when the directory [src] holds a file that ends in [.ts] and not
    in [.d.ts], and as JavaScript otherwise; [es6class] is inferred as yes
    exactly when a line of the main file begins, after spaces and tabs, with
    [class], and as no otherwise; [connectionIndicator] is inferred as yes
    exactly when [instanceObjects] has an entry whose [_id] is
    [info.connection], and as no otherwise. *)
Theorem migrate_inference ctx :
  (language_migrate ctx = AString "TypeScript" <->
   exists files f,
     directoryFiles ctx "src" = Some files /\ f ∈ files /\
     (exists stem, f = stem +:+ ".ts") /\ ~ (exists stem, f = stem +:+ ".d.ts")) /\
  (language_migrate ctx = AString "TypeScript" \/
   language_migrate ctx = AString "JavaScript") /\
  (es6class_migrate ctx = AString "yes" <->
   exists before blanks after,
     mainFileContent ctx = before ++ blanks ++ codeUnits "class" ++ after /\
     atLineStart before /\
     Forall (fun c => isSpaceOrTab c = true) blanks) /\
  (es6class_migrate ctx = AString "yes" \/ es6class_migrate ctx = AString "no") /\
  (connectionIndicator_migrate ctx = AString "yes" <->
   exists objects o,
     instanceObjects (ioPackageJson ctx) = Some objects /\ o ∈ objects /\
     _id o = Some "info.connection") /\
  (connectionIndicator_migrate ctx = AString "yes" \/
   connectionIndicator_migrate ctx = AString "no").
Proof.
  split; [|split; [|split; [|split; [|split]]]].
  - unfold language_migrate, hasFilesWithExtension.
    destruct (directoryFiles ctx "src") as [files|].
    + destruct (existsb _ files) eqn:E.
      * split; [intros _ | done]. apply existsb_exists in E as (f & Hin & Hf).
        apply andb_true_iff in Hf as [Hts Hd].
        apply negb_true_iff in Hd.
        exists files, f. split; [done|]. split; [by apply list_elem_of_In|].
        split; [by apply endsWith_spec | by apply endsWith_false].
      * split; [discriminate|]. intros (files' & f & [= <-] & Hin & Hts & Hd).
        exfalso. apply Bool.not_true_iff_false in E. apply E.
        apply existsb_exists. exists f. split; [by apply list_elem_of_In|].
        apply andb_true_iff. split; [by apply endsWith_spec|].
        apply negb_true_iff. by apply endsWith_false.
    + split; [discriminate|]. by intros (files & f & [=] & _).
  - unfold language_migrate. destruct (hasFilesWithExtension _ _ _ _); auto.
  - unfold es6class_migrate, getMainFileContent.
    rewrite <- matchesClassLine_spec.
    destruct (matchesClassLine (mainFileContent ctx)); split; congruence.
  - unfold es6class_migrate. destruct (matchesClassLine _); auto.
  - unfold connectionIndicator_migrate.
    destruct (instanceObjects (ioPackageJson ctx)) as [objects|].
    + destruct (existsb _ objects) eqn:E.
      * split; [intros _ | done]. apply existsb_exists in E as (o & Hin & Ho).
        exists objects, o. split; [done|]. split; [by apply list_elem_of_In|].
        destruct (_id o) as [id|]; [|discriminate].
        by apply String.eqb_eq in Ho as ->.
      * split; [discriminate|]. intros (objects' & o & [= <-] & Hin & Hid).
        exfalso. apply Bool.not_true_iff_false in E. apply E.
        apply existsb_exists. exists o. split; [by apply list_elem_of_In|].
        by rewrite Hid.
    + split; [discriminate|]. by intros (objects & o & [=] & _).
  - unfold connectionIndicator_migrate.
    destruct (instanceObjects (ioPackageJson ctx)) as [objects|]; [|auto].
    destruct (existsb _ objects); auto.
Qed.

(** The three inferences on the two sample projects. *)
Example migrate_typeScriptProject :
  language_migrate typeScriptProject = AString "TypeScript" /\
  es6class_migrate typeScriptProject = AString "yes" /\
  connectionIndicator_migrate typeScriptProject = AString "yes".
Proof. by vm_compute. Qed.

Example migrate_javaScriptProject :
  language_migrate javaScriptProject = AString "JavaScript" /\
  es6class_migrate javaScriptProject = AString "no" /\
  connectionIndicator_migrate javaScriptProject = AString "no".
Proof. by vm_compute. Qed.

(** A line separator (U+2028) starts a line as well. *)
Example matchesClassLine_line_separator :
  matchesClassLine ([59; 8232; 32]%N ++ codeUnits "class A {}") = true.
Proof. reflexivity. Qed.

(** * Further properties *)

Lemma find_none_Forall {A : Type} (f : A -> bool) (l : list A) :
  List.find f l = None <-> Forall (fun x => f x = false) l.
Proof.
  induction l as [|x l IH]; simpl; [by split|].
  rewrite Forall_cons. destruct (f x); [|by rewrite IH; intuition].
  split; [discriminate | intros [? _]; discriminate].
Qed.

Lemma checkAnswers_accepts lib s :
  fst (checkAnswers lib s) = Normal tt <->
  Forall (fun q => missing (answers s) q = false) (questions lib).
Proof.
  rewrite checkAnswers_find, <- find_none_Forall. cbn [fst].
  destruct (List.find (missing (answers s)) (questions lib));
    split; congruence.
Qed.

Lemma missing_false a q :
  missing a q = false <->
  (testCondition (condition q) a = true -> optional q = false ->
   is_Some (a !! name q)).
Proof.
  unfold missing.
  destruct (testCondition (condition q) a), (optional q), (a !! name q);
    simpl; split; try done; try (intros; by eexists).
  intros H. by destruct H.
Qed.

Lemma doesNotContain_not_contains n x a :
  testSingleCondition (CondDoesNotContain n x) a
  = negb (testSingleCondition (CondContains n x) a).
Proof. cbn [testSingleCondition]. by destruct (a !! n) as [[| | |]|]. Qed.

Lemma testSingleCondition_value n v a :
  testSingleCondition (CondValue n v) a = true <-> a !! n = Some (Scalar v).
Proof. apply strictEquals_true. Qed.

(** X1.  [checkAnswers] returns normally exactly on the complete answer
    sets: the eleven answers asked of everyone are there ([type] among them,
    since one of its two branches is always active), the eight adapter
    answers are there when the adapter feature is selected, and so are
    [scheduleStartOnChange] under the start mode [schedule], [tabReact] under
    the admin feature [tab], [tools] under either language and [gitCommit]
    under [cli]. *)
Theorem checkAnswers_accepts_iff_complete lib s :
  fst (checkAnswers lib s) = Normal tt <-> complete (answers s).
Proof.
  rewrite checkAnswers_accepts.
  etrans; [apply Forall_iff; intros q; apply missing_false|].
  unfold complete, alwaysRequired, adapterRequired, questions,
    questionsAndText, styledMultiselect, adapterFeature.
  cbn [List.filter isQuestionOrGroup map questionsOf fold_left app].
  rewrite !Forall_fold_right.
  cbn [foldr name condition optional testCondition forallb].
  rewrite !testSingleCondition_value, doesNotContain_not_contains, !andb_true_r.
  destruct (testSingleCondition (CondContains "features" (AString "adapter"))
              (answers s));
    destruct (testSingleCondition (CondContains "adminFeatures" (AString "tab"))
                (answers s));
    cbn [negb andb]; split; intros H; decompose [and] H; clear H;
    repeat match goal with H : ?x = ?x -> _ |- _ => specialize (H eq_refl) end;
    repeat match goal with H : _ /\ _ |- _ => destruct H end;
    repeat split; intros;
    repeat match goal with H : _ \/ _ |- _ => destruct H end;
    try discriminate; auto 4.
Qed.

(** ** More on the transformation pass *)

Lemma formatAnswer_session q a cs :
  formatAnswer q {| answers := a; calls := cs |} =
  (Normal tt,
   {| answers := applyTransform q a; calls := cs ++ transformCall q a |}).
Proof.
  unfold formatAnswer, applyTransform, transformCall, mbind, Run_bind,
    evalCondition, readAnswer, callTransform, writeAnswer, continue, mret,
    Run_ret.
  cbn -[lookup insert delete testCondition settle].
  destruct (testCondition (condition q) a);
    cbn -[lookup insert delete testCondition settle].
  - destruct (a !! name q) as [value|]; [|by rewrite app_nil_r].
    destruct (resultTransform q) as [transform|]; [|by rewrite app_nil_r].
    cbn -[lookup insert delete testCondition settle].
    by destruct (settle (transform value)).
  - destruct (a !! name q), (resultTransform q); by rewrite app_nil_r.
Qed.

Lemma format_loop_session qs a cs :
  forOf qs formatAnswer {| answers := a; calls := cs |} =
  (Normal tt,
   {| answers := applyTransforms qs a; calls := cs ++ transformCalls qs a |}).
Proof.
  revert a cs. induction qs as [|q qs IH]; intros a cs; simpl.
  - by rewrite app_nil_r.
  - unfold mbind, Run_bind. rewrite formatAnswer_session, IH.
    by rewrite <- app_assoc.
Qed.

Lemma formatAnswers_session lib a cs :
  formatAnswers lib {| answers := a; calls := cs |} =
  (Normal (applyTransforms (questions lib) a),
   {| answers := applyTransforms (questions lib) a;
      calls := cs ++ transformCalls (questions lib) a |}).
Proof.
  unfold formatAnswers, mbind, Run_bind. by rewrite format_loop_session.
Qed.

Lemma applyTransform_none q a :
  resultTransform q = None -> applyTransform q a = a.
Proof. unfold applyTransform. intros ->. by destruct (a !! name q). Qed.

Lemma transformCall_none q a : resultTransform q = None -> transformCall q a = [].
Proof. unfold transformCall. intros ->. by destruct (a !! name q). Qed.

Lemma applyTransforms_none qs a :
  Forall (fun q => resultTransform q = None) qs -> applyTransforms qs a = a.
Proof.
  induction 1 as [|q qs Hq _ IH]; [done|].
  unfold applyTransforms in *. cbn [fold_left].
  by rewrite (applyTransform_none _ _ Hq).
Qed.

Lemma transformCalls_none qs a :
  Forall (fun q => resultTransform q = None) qs -> transformCalls qs a = [].
Proof.
  induction 1 as [|q qs Hq _ IH]; [done|]. cbn [transformCalls].
  by rewrite (transformCall_none _ _ Hq), (applyTransform_none _ _ Hq).
Qed.

(** One round, seen from a name: the answer under the question's name is
    transformed when the round applies, and no other name is touched. *)
Lemma applyTransform_lookup q a key :
  applyTransform q a !! key =
  match resultTransform q with
  | Some t =>
      if testCondition (condition q) a && String.eqb key (name q)
      then a !! key ≫= (fun v => settle (t v))
      else a !! key
  | None => a !! key
  end.
Proof.
  unfold applyTransform. destruct (resultTransform q) as [t|];
    [|by destruct (a !! name q)].
  destruct (testCondition (condition q) a); cbn [andb];
    [|by destruct (a !! name q), (String.eqb key (name q))].
  destruct (String.eqb_spec key (name q)) as [->|Hne].
  - destruct (a !! name q) as [v|] eqn:Hv; cbn [mbind option_bind]; [|done].
    destruct (settle (t v)); [apply lookup_insert_eq | apply lookup_delete_eq].
  - destruct (a !! name q) as [v|]; [|done].
    destruct (settle (t v));
      [by apply lookup_insert_ne | by apply lookup_delete_ne].
Qed.

Lemma transformCall_eq q a :
  transformCall q a =
  match resultTransform q with
  | Some _ =>
      if testCondition (condition q) a
      then option_list (TransformCall (name q) <$> a !! name q) else []
  | None => []
  end.
Proof.
  unfold transformCall.
  by destruct (a !! name q), (resultTransform q),
    (testCondition (condition q) a).
Qed.

(** X2.  [formatAnswers] never throws and returns the answer object; in it,
    each of [adapterName], [description], [keywords] and [contributors] that
    was defined holds the settled result of its transform applied to the
    value it had, and every other name reads as before. *)
Theorem formatAnswers_lookup lib s key :
  fst (formatAnswers lib s)
  = Normal (answers (snd (formatAnswers lib s))) /\
  answers (snd (formatAnswers lib s)) !! key =
  match transformOf lib key with
  | Some transform => answers s !! key ≫= (fun v => settle (transform v))
  | None => answers s !! key
  end.
Proof.
  destruct s as [a cs]. rewrite formatAnswers_session. cbn [fst snd answers].
  split; [done|].
  unfold questions, questionsAndText, styledMultiselect, applyTransforms.
  cbn [List.filter isQuestionOrGroup map questionsOf fold_left app].
  repeat (rewrite applyTransform_lookup;
          cbn [resultTransform condition name testCondition andb]).
  unfold transformOf.
  repeat match goal with
         | |- context [String.eqb key ?n] =>
             destruct (String.eqb_spec key n) as [->|?]
         end;
    cbv [String.eqb Ascii.eqb Bool.eqb]; try done.
Qed.

Lemma transformCalls_skip q qs a :
  resultTransform q = None -> transformCalls (q :: qs) a = transformCalls qs a.
Proof.
  intros Hq. cbn [transformCalls].
  by rewrite (transformCall_none _ _ Hq), (applyTransform_none _ _ Hq).
Qed.

Lemma transformCalls_unconditional q t qs a :
  resultTransform q = Some t -> condition q = NoCondition ->
  transformCalls (q :: qs) a =
  option_list (TransformCall (name q) <$> a !! name q)
  ++ transformCalls qs (applyTransform q a).
Proof.
  intros Ht Hc. cbn [transformCalls]. rewrite transformCall_eq, Ht, Hc. done.
Qed.

Lemma applyTransform_lookup_ne q a key :
  name q <> key -> applyTransform q a !! key = a !! key.
Proof.
  intros Hne. rewrite applyTransform_lookup.
  destruct (resultTransform q); [|done].
  destruct (String.eqb_spec key (name q)) as [->|_]; [done|].
  by rewrite andb_false_r.
Qed.

(** X3.  [formatAnswers] calls a transform once for each of [adapterName],
    [description], [keywords], [contributors] that is defined, in this
    order and with the value the answer had on entry, and makes no other
    call. *)
Theorem formatAnswers_calls lib s :
  calls (snd (formatAnswers lib s)) =
  calls s ++
  omap (fun n => TransformCall n <$> answers s !! n) transformedNames.
Proof.
  destruct s as [a cs]. rewrite formatAnswers_session. cbn [snd answers calls].
  f_equal.
  unfold questions, questionsAndText, styledMultiselect, transformedNames.
  cbn [List.filter isQuestionOrGroup map questionsOf fold_left app].
  erewrite transformCalls_unconditional; [|reflexivity|reflexivity].
  rewrite transformCalls_skip by reflexivity.
  do 3 (erewrite transformCalls_unconditional; [|reflexivity|reflexivity]).
  rewrite transformCalls_none by (repeat constructor).
  cbn [name].
  rewrite !applyTransform_lookup_ne by discriminate.
  cbn [omap list_omap].
  generalize (a !! "adapterName"), (a !! "description"), (a !! "keywords"),
    (a !! "contributors").
  by intros [?|] [?|] [?|] [?|].
Qed.

Lemma find_ext_Forall {A : Type} (f g : A -> bool) (l : list A) :
  Forall (fun x => f x = g x) l -> List.find f l = List.find g l.
Proof.
  induction 1 as [|x l Hx _ IH]; simpl; [done|]. by rewrite Hx, IH.
Qed.

(** X4.  When the transform of [adapterName] never returns [undefined],
    [checkAnswers] ends the same way on the formatted answers as on the
    answers before formatting. *)
Theorem formatAnswers_keeps_completeness lib s :
  (forall v, is_Some (settle (transformAdapterName lib v))) ->
  fst (checkAnswers lib (snd (formatAnswers lib s)))
  = fst (checkAnswers lib s).
Proof.
  intros Hname. rewrite !checkAnswers_find. cbn [fst].
  pose proof (fun key => proj2 (formatAnswers_lookup lib s key)) as Hl.
  generalize dependent (answers (snd (formatAnswers lib s))).
  intros a' Hl.
  assert (isUndefined (a' !! "adapterName")
          = isUndefined (answers s !! "adapterName")) as Hn.
  { rewrite Hl. unfold transformOf. cbv [String.eqb Ascii.eqb Bool.eqb].
    destruct (answers s !! "adapterName") as [v|]; [|done].
    cbn [mbind option_bind]. by destruct (Hname v) as [w ->]. }
  rewrite (find_ext_Forall (missing a') (missing (answers s))); [done|].
  unfold questions, questionsAndText, styledMultiselect, adapterFeature.
  cbn [List.filter isQuestionOrGroup map questionsOf fold_left app].
  repeat apply Forall_cons_2; [..|apply Forall_nil_2].
  all: unfold missing;
    cbn [name condition optional testCondition testSingleCondition forallb
         negb andb].
  all: rewrite ?andb_false_r, ?Hn, ?Hl; unfold transformOf;
    cbv [String.eqb Ascii.eqb Bool.eqb].
  all: exact eq_refl.
Qed.

Lemma formatAnswers_keeps_completeness_witness :
  fst (checkAnswers sampleLib
         (snd (formatAnswers sampleLib (session nameNoTitle))))
  = fst (checkAnswers sampleLib (session nameNoTitle)).
Proof.
  apply formatAnswers_keeps_completeness. intros v. eexists. reflexivity.
Defined.

(** ** More on the validation pass *)

(** However the loop ends, the validators it has called are those of the
    first so many consulted questions, in order. *)
Lemma validate_loop_calls dv qs a cs :
  exists n,
    snd (forOf qs (validateAnswer dv) {| answers := a; calls := cs |}) =
    {| answers := a;
       calls := cs ++ map (actionCall a)
                        (take n (List.filter (consulted dv a) qs)) |}.
Proof.
  revert cs. induction qs as [|q qs IH]; intros cs.
  - exists 0%nat. cbn. by rewrite app_nil_r.
  - cbn [forOf List.filter]. unfold mbind, Run_bind.
    rewrite validateAnswer_outcome.
    destruct (consulted dv a q); [|apply IH].
    destruct (verdict a q); cbn [afterVerdict].
    + destruct (IH (cs ++ [actionCall a q])) as [n Hn].
      exists (S n). rewrite Hn. cbn [take map]. by rewrite <- app_assoc.
    + exists 1%nat. cbn [take map snd]. by rewrite take_0.
Qed.

Lemma consulted_true dv a q :
  consulted dv a q = true <->
  testCondition (condition q) a = true /\ is_Some (action q) /\ name q ∉ dv.
Proof.
  unfold consulted. rewrite !andb_true_iff, negb_true_iff, bool_decide_eq_false.
  destruct (action q); split; intros [[? ?] ?] || intros (? & [? ?] & ?);
    try done; repeat split; by eauto.
Qed.

(** X5.  However [validateAnswers] ends, it leaves the answers alone, and
    the validators it has called are those of an initial stretch of the
    consulted questions in declaration order, each with the current answer:
    no validator of an inactive or disabled question is ever called. *)
Theorem validateAnswers_calls_only_consulted lib disableValidation s :
  exists called,
    snd (validateAnswers lib disableValidation s) =
    {| answers := answers s;
       calls := calls s ++ map (actionCall (answers s)) called |} /\
    called `prefix_of`
      List.filter (consulted disableValidation (answers s)) (questions lib) /\
    Forall (fun q => q ∈ questions lib /\
                     testCondition (condition q) (answers s) = true /\
                     is_Some (action q) /\
                     name q ∉ disableValidation) called.
Proof.
  destruct s as [a cs]. unfold validateAnswers. cbn [answers calls].
  destruct (validate_loop_calls disableValidation (questions lib) a cs)
    as [n Hn].
  exists (take n (List.filter (consulted disableValidation a) (questions lib))).
  pose proof (prefix_take
                (List.filter (consulted disableValidation a) (questions lib))
                n) as Hpre.
  split; [done|]. split; [done|].
  apply Forall_forall. intros q Hq.
  apply (elem_of_prefix _ _ _ Hq) in Hpre.
  apply list_elem_of_In, filter_In in Hpre as [Hin Hc].
  split; [by apply list_elem_of_In|]. by apply consulted_true.
Qed.

(** The loop returns normally exactly when no consulted validator objects. *)
Lemma validate_loop_normal dv qs a cs :
  fst (forOf qs (validateAnswer dv) {| answers := a; calls := cs |}) = Normal tt
  <-> Forall (fun q => consulted dv a q = true -> verdict a q = CheckTrue) qs.
Proof.
  split; [|intros H; by rewrite (validate_loop_pass _ _ _ _ H)].
  revert cs. induction qs as [|q qs IH]; intros cs; [done|].
  cbn [forOf]. unfold mbind, Run_bind. rewrite validateAnswer_outcome.
  destruct (consulted dv a q) eqn:Hc.
  - destruct (verdict a q) eqn:Hv; cbn [afterVerdict fst];
      [|intros ?; discriminate].
    intros H%IH. by constructor.
  - intros H%IH. constructor; [congruence | done].
Qed.

(** X6.  Disabling more validators never makes a passing validation
    fail. *)
Theorem validateAnswers_disable_more lib dv dv' s :
  dv ⊆ dv' ->
  fst (validateAnswers lib dv s) = Normal tt ->
  fst (validateAnswers lib dv' s) = Normal tt.
Proof.
  destruct s as [a cs]. unfold validateAnswers. intros Hsub.
  rewrite !validate_loop_normal. intros H.
  eapply Forall_impl; [exact H|]. cbv beta.
  intros q Hq Hc'. apply Hq.
  apply consulted_true in Hc' as (Ht & Ha & Hn).
  apply consulted_true. repeat split; [done|done|]. intros Hin. by apply Hn, Hsub.
Qed.

Lemma validateAnswers_disable_more_witness :
  fst (validateAnswers sampleLib ["adapterName"; "title"; "features"]
         (session nameNoTitle)) = Normal tt.
Proof.
  apply (validateAnswers_disable_more sampleLib ["adapterName"; "title"]).
  - intros x. rewrite !elem_of_cons. tauto.
  - by vm_compute.
Defined.

Lemma filter_none {A : Type} (f : A -> bool) (l : list A) :
  Forall (fun x => f x = false) l -> List.filter f l = [].
Proof.
  induction 1 as [|x l Hx _ IH]; cbn [List.filter]; [done|]. by rewrite Hx.
Qed.

(** X7.  When every question that has a validator is named in
    [disableValidation], [validateAnswers] returns normally without calling
    anything. *)
Theorem validateAnswers_all_disabled lib disableValidation s :
  (forall q, q ∈ questions lib -> is_Some (action q) ->
             name q ∈ disableValidation) ->
  validateAnswers lib disableValidation s = (Normal tt, s).
Proof.
  intros Hall. destruct s as [a cs]. unfold validateAnswers.
  assert (Forall (fun q => consulted disableValidation a q = false)
            (questions lib)) as Hnone.
  { apply Forall_forall. intros q Hq.
    destruct (consulted disableValidation a q) eqn:Hc; [|done].
    apply consulted_true in Hc as (_ & Ha & Hn). by destruct Hn; apply Hall. }
  rewrite validate_loop_pass.
  - rewrite (filter_none _ _ Hnone). cbn [map]. by rewrite app_nil_r.
  - eapply Forall_impl; [exact Hnone|]. cbv beta. congruence.
Qed.

Lemma validateAnswers_all_disabled_witness :
  validateAnswers sampleLib
    ["adapterName"; "title"; "features"; "tools"; "authorName";
     "authorGithub"; "authorEmail"] (session nameNoTitle)
  = (Normal tt, session nameNoTitle).
Proof.
  apply validateAnswers_all_disabled.
  intros q Hq. apply list_elem_of_In in Hq. vm_compute in Hq.
  repeat (destruct Hq as [<-|Hq]; [intros Ha; try (by destruct Ha);
    repeat (first [ by apply list_elem_of_here | apply list_elem_of_further ])|]).
  done.
Defined.

(** ** The template of [.npmignore] *)

Lemma usesTool_true answers tool :
  usesTool answers tool = true <->
  exists selected, tools answers = Some selected /\ tool ∈ selected.
Proof.
  unfold usesTool. destruct (tools answers) as [selected|].
  - rewrite indexOf_found, bool_decide_eq_true. split.
    + intros H. by exists selected.
    + by intros (? & [= <-] & H).
  - split; [discriminate | by intros (? & [=] & _)].
Qed.

Lemma uses_adapter answers :
  (indexOf (features answers) "adapter" >? -1) = true <->
  "adapter" ∈ features answers.
Proof. by rewrite indexOf_found, bool_decide_eq_true. Qed.

Lemma has_line (line : string) (lines : list string) :
  line ∈ lines <-> existsb (String.eqb line) lines = true.
Proof.
  rewrite existsb_exists. split.
  - intros H. exists line. split; [by apply list_elem_of_In|].
    apply String.eqb_refl.
  - intros (x & Hin & ->%String.eqb_eq). by apply list_elem_of_In.
Qed.

(** Reduces a statement about the lines of the generated file to the 32
    combinations of the five switches of the template. *)
Ltac by_switches :=
  rewrite ?has_line; unfold templateFunction; cbv zeta;
  match goal with
  | |- context [indexOf (features ?a) "adapter" >? -1] =>
      generalize (indexOf (features a) "adapter" >? -1),
        (usesTool a "code coverage"),
        (bool_decide (language a = Some "TypeScript")),
        (usesTool a "type checking"),
        (bool_decide (adminReact a = Some "yes"))
  end;
  intros [] [] [] [] []; vm_compute;
  repeat split; intros; try reflexivity; try discriminate; tauto.

(** X8.  Whatever the answers, the generated [.npmignore] is trimmed to
    start with the line [.*] and to end with the line [maintenance/**], and
    it lists the nine entries that do not depend on the answers. *)
Theorem npmignore_frame answers :
  head (splitLines (templateFunction answers)) = Some ".*" /\
  last (splitLines (templateFunction answers)) = Some "maintenance/**" /\
  Forall (fun entry => entry ∈ splitLines (templateFunction answers))
    ["node_modules/"; "nbproject/"; "*.code-workspace"; "Thumbs.db"; "test/";
     "travis/"; "appveyor.yaml"; "iobroker.*.tgz"; "package-lock.json"].
Proof. rewrite Forall_fold_right. cbn [foldr]. by_switches. Qed.

(** X9.  [gulpfile.js] is ignored exactly when the adapter feature is
    selected. *)
Theorem npmignore_gulpfile answers :
  "gulpfile.js" ∈ splitLines (templateFunction answers) <->
  "adapter" ∈ features answers.
Proof. rewrite <- uses_adapter. by_switches. Qed.

(** X10.  The sources [src/] and the source maps are ignored exactly for
    TypeScript; [admin/src/] exactly for TypeScript with React (not for
    JavaScript with React); [tsconfig.json] exactly for TypeScript or when
    type checking is among the tools. *)
Theorem npmignore_typescript answers :
  ("src/" ∈ splitLines (templateFunction answers) <->
   language answers = Some "TypeScript") /\
  ("*.map" ∈ splitLines (templateFunction answers) <->
   language answers = Some "TypeScript") /\
  ("admin/src/" ∈ splitLines (templateFunction answers) <->
   language answers = Some "TypeScript" /\ adminReact answers = Some "yes") /\
  ("tsconfig.json" ∈ splitLines (templateFunction answers) <->
   language answers = Some "TypeScript" \/
   exists selected,
     tools answers = Some selected /\ "type checking" ∈ selected).
Proof.
  rewrite <- usesTool_true.
  rewrite <- !(bool_decide_eq_true (language answers = _)).
  rewrite <- !(bool_decide_eq_true (adminReact answers = _)).
  by_switches.
Qed.

(** X11.  [coverage] is ignored exactly when code coverage is among the
    tools, and [admin/i18n] exactly when React is not used for the admin
    UI. *)
Theorem npmignore_coverage_i18n answers :
  ("coverage" ∈ splitLines (templateFunction answers) <->
   exists selected,
     tools answers = Some selected /\ "code coverage" ∈ selected) /\
  ("admin/i18n" ∈ splitLines (templateFunction answers) <->
   adminReact answers <> Some "yes").
Proof.
  rewrite <- usesTool_true.
  rewrite <- (bool_decide_eq_false (adminReact answers = _)).
  by_switches.
Qed.

Lemma indexOf_cons_ne x y l :
  x <> y -> (indexOf (x :: l) y >? -1) = (indexOf l y >? -1).
Proof.
  intros Hne. rewrite !indexOf_found. apply bool_decide_ext.
  rewrite elem_of_cons. split; [intros [?|?]; congruence | by right].
Qed.

(** X12.  Selecting ESLint changes nothing in the generated file: the
    switch [useESLint] is computed and never used. *)
Theorem npmignore_ignores_eslint answers selected :
  tools answers = Some selected ->
  templateFunction
    {| features := features answers; tools := Some ("ESLint" :: selected);
       language := language answers; adminReact := adminReact answers |}
  = templateFunction answers.
Proof.
  intros Ht. unfold templateFunction, usesTool. cbn [features tools language adminReact].
  rewrite Ht. by rewrite !indexOf_cons_ne by discriminate.
Qed.

Lemma npmignore_ignores_eslint_witness :
  templateFunction
    {| features := ["adapter"]; tools := Some ["ESLint"; "ESLint"];
       language := Some "TypeScript"; adminReact := Some "no" |}
  = templateFunction sampleTemplateAnswers.
Proof. apply (npmignore_ignores_eslint sampleTemplateAnswers). reflexivity. Defined.

(** ** More on the migration functions *)

(** Closes a goal that is decidable and holds by evaluation. *)
Ltac by_decision := apply (bool_decide_unpack _); vm_compute; exact I.

(** An equivalence between two closed decidable statements. *)
Ltac iff_by_decision :=
  split; intros H;
  first [ reflexivity | by_decision
        | exfalso;
          first [ discriminate H
                | revert H;
                  match goal with |- ?P -> False => change (~ P) end;
                  by_decision ] ].

(** X13.  The inferred [features] hold [adapter] exactly when the directory
    [admin] exists and [vis] exactly when [widgets] exists, nothing else and
    nothing twice; with them in the answer set, the adapter questions are
    active exactly when [admin] exists. *)
Theorem features_migrate_directories ctx a :
  (AString "adapter" ∈ features_migrate ctx <->
   directoryExists ctx "admin" = true) /\
  (AString "vis" ∈ features_migrate ctx <->
   directoryExists ctx "widgets" = true) /\
  features_migrate ctx ⊆ [AString "adapter"; AString "vis"] /\
  NoDup (features_migrate ctx) /\
  testCondition (OneCondition adapterFeature)
    (<["features" := Array (features_migrate ctx)]> a)
  = directoryExists ctx "admin".
Proof.
  unfold features_migrate, adapterFeature.
  cbn [testCondition testSingleCondition]. rewrite lookup_insert_eq.
  destruct (directoryExists ctx "admin"), (directoryExists ctx "widgets");
    (split; [|split; [|split; [|split]]]);
    first [ iff_by_decision | by_decision | by vm_compute ].
Qed.

Lemma hasFilesWithExtension_true ctx dirName extension keep :
  hasFilesWithExtension ctx dirName extension (Some keep) = true <->
  exists files f,
    directoryFiles ctx dirName = Some files /\ f ∈ files /\
    (exists stem, f = stem +:+ extension) /\ keep f = true.
Proof.
  unfold hasFilesWithExtension.
  destruct (directoryFiles ctx dirName) as [files|].
  - rewrite existsb_exists. split.
    + intros (f & Hin & [Hext Hkeep]%andb_true_iff).
      exists files, f. split; [done|]. split; [by apply list_elem_of_In|].
      split; [by apply endsWith_spec | done].
    + intros (files' & f & [= <-] & Hin & Hext & Hkeep).
      exists f. split; [by apply list_elem_of_In|].
      apply andb_true_iff. split; [by apply endsWith_spec | done].
  - split; [discriminate | by intros (? & ? & [=] & _)].
Qed.

(** X14.  [adminReact] is inferred as yes exactly when [admin/src] holds a
    [.jsx] file that does not end in [tab.jsx] or a [.tsx] file that does
    not end in [tab.tsx], and as no otherwise. *)
Theorem adminReact_migrate_react ctx :
  (adminReact_migrate ctx = AString "yes" <->
   exists files f,
     directoryFiles ctx "admin/src" = Some files /\ f ∈ files /\
     (((exists stem, f = stem +:+ ".jsx") /\
       ~ (exists stem, f = stem +:+ "tab.jsx")) \/
      ((exists stem, f = stem +:+ ".tsx") /\
       ~ (exists stem, f = stem +:+ "tab.tsx")))) /\
  (adminReact_migrate ctx = AString "yes" \/
   adminReact_migrate ctx = AString "no").
Proof.
  unfold adminReact_migrate.
  split; [|destruct (_ || _); auto].
  transitivity
    (hasFilesWithExtension ctx "admin/src" ".jsx"
       (Some (fun f => negb (endsWith f "tab.jsx")))
     || hasFilesWithExtension ctx "admin/src" ".tsx"
          (Some (fun f => negb (endsWith f "tab.tsx"))) = true).
  { destruct (_ || _); split; congruence. }
  rewrite orb_true_iff, !hasFilesWithExtension_true. split.
  - intros [(files & f & Hd & Hin & Hext & Hk)|(files & f & Hd & Hin & Hext & Hk)];
      apply negb_true_iff, endsWith_false in Hk;
      exists files, f; (split; [done|]); (split; [done|]); [left | right];
      by split.
  - intros (files & f & Hd & Hin & [[Hext Hk]|[Hext Hk]]);
      [left | right]; exists files, f;
      (split; [done|]); (split; [done|]); (split; [done|]);
      by apply negb_true_iff, endsWith_false.
Qed.

(** X15.  With the inferred language in the answer set, exactly one of the
    two [tools] branches is active: the TypeScript branch when TypeScript was
    inferred, the JavaScript branch otherwise. *)
Theorem language_migrate_selects_tools ctx a :
  let a' := <["language" := Scalar (language_migrate ctx)]> a in
  (testCondition (OneCondition (CondValue "language" (AString "TypeScript"))) a'
   = true <-> language_migrate ctx = AString "TypeScript") /\
  testCondition (OneCondition (CondValue "language" (AString "JavaScript"))) a'
  = negb (testCondition
            (OneCondition (CondValue "language" (AString "TypeScript"))) a').
Proof.
  cbn zeta. cbn [testCondition testSingleCondition].
  rewrite !lookup_insert_eq. unfold language_migrate.
  destruct (hasFilesWithExtension ctx "src" ".ts" _);
    split; first [ iff_by_decision | by vm_compute ].
Qed.

(** ** Defaults and the question graph *)

(** X16.  [getDefaultAnswer] provides a default only under names of
    optional questions. *)
Theorem getDefaultAnswer_only_optional lib q :
  q ∈ questions lib -> is_Some (getDefaultAnswer (name q)) -> optional q = true.
Proof.
  intros Hq. apply list_elem_of_In in Hq. vm_compute in Hq.
  repeat (destruct Hq as [<-|Hq];
          [intros [v Hv]; first [ reflexivity | discriminate Hv ]|]).
  done.
Qed.

Lemma getDefaultAnswer_only_optional_witness :
  optional {| name := "keywords"; condition := NoCondition; optional := true;
              resultTransform := Some (transformKeywords sampleLib);
              action := None |} = true.
Proof.
  apply (getDefaultAnswer_only_optional sampleLib).
  - apply list_elem_of_lookup. by exists 3%nat.
  - eexists. reflexivity.
Defined.

(** ** The class detection, line by line *)

Lemma startsWithUnits_cut literal text c rest :
  c ∉ literal ->
  startsWithUnits literal (text ++ c :: rest) = startsWithUnits literal text.
Proof.
  revert text. induction literal as [|a literal IH]; intros text Hc; [done|].
  apply not_elem_of_cons in Hc as [Hca Hc].
  destruct text as [|b text]; cbn [app startsWithUnits].
  - apply andb_false_intro1. apply N.eqb_neq. congruence.
  - by rewrite IH.
Qed.

Lemma skipSpacesAndTabs_cut text c rest :
  isSpaceOrTab c = false ->
  skipSpacesAndTabs (text ++ c :: rest) = skipSpacesAndTabs text ++ c :: rest.
Proof.
  intros Hc. induction text as [|b text IH]; cbn [app skipSpacesAndTabs].
  - by rewrite Hc.
  - by destruct (isSpaceOrTab b).
Qed.

Lemma lineTerminator_cases c :
  isLineTerminator c = true -> c = 10%N \/ c = 13%N \/ c = 8232%N \/ c = 8233%N.
Proof.
  unfold isLineTerminator. rewrite !orb_true_iff, !N.eqb_eq. tauto.
Qed.

Lemma classAtHead_cut text c rest :
  isLineTerminator c = true ->
  classAtHead (text ++ c :: rest) = classAtHead text.
Proof.
  intros Hc. unfold classAtHead.
  apply lineTerminator_cases in Hc as [-> | [-> | [-> | ->]]];
    (rewrite skipSpacesAndTabs_cut by reflexivity);
    apply startsWithUnits_cut; by_decision.
Qed.

Lemma classLineFrom_cut lineStart text c rest :
  isLineTerminator c = true ->
  classLineFrom lineStart (text ++ c :: rest)
  = classLineFrom lineStart text || classLineFrom true rest.
Proof.
  intros Hc. revert lineStart.
  induction text as [|b text IH]; intros lineStart.
  - pose proof (classAtHead_cut [] c rest Hc) as Hhead.
    cbn [app] in *. cbn [classLineFrom]. rewrite Hc, Hhead.
    change (classAtHead []) with false. by rewrite !andb_false_r.
  - cbn [app classLineFrom].
    change (b :: text ++ c :: rest) with ((b :: text) ++ c :: rest).
    rewrite (classAtHead_cut (b :: text) c rest Hc), IH.
    by rewrite orb_assoc.
Qed.

(** X17.  The class detection of [es6class] works line by line: a text cut
    at a line terminator has a match exactly when the part before or the
    part after has one. *)
Theorem matchesClassLine_by_line text c rest :
  isLineTerminator c = true ->
  matchesClassLine (text ++ c :: rest)
  = matchesClassLine text || matchesClassLine rest.
Proof. apply classLineFrom_cut. Qed.

Lemma matchesClassLine_by_line_witness :
  matchesClassLine (codeUnits "// main" ++ 10%N :: codeUnits " class A {}")
  = matchesClassLine (codeUnits "// main")
    || matchesClassLine (codeUnits " class A {}").
Proof. apply matchesClassLine_by_line. reflexivity. Defined.

(** ** Names and their records *)

Lemma branches_absent qs n : n ∉ map name qs -> branches qs n = 0%nat.
Proof.
  unfold branches. induction qs as [|q qs IH]; [done|].
  cbn [map List.filter]. intros [Hq Hqs]%not_elem_of_cons.
  destruct (String.eqb_spec (name q) n) as [Heq|_]; [congruence|]. by apply IH.
Qed.

(** X18.  No name is carried by more than two question records, and
    exactly [type] and [tools] are carried by two. *)
Theorem branches_at_most_two lib n :
  (branches (questions lib) n <= 2)%nat /\
  (branches (questions lib) n = 2%nat <-> n = "type" \/ n = "tools").
Proof.
  destruct (decide (n ∈ map name (questions lib))) as [Hin|Hout].
  - apply list_elem_of_In in Hin. vm_compute in Hin.
    repeat (destruct Hin as [<-|Hin];
            [vm_compute; split; [repeat constructor|];
             split; [first [ discriminate | intros _; tauto ]
                    | first [ reflexivity | intros [H|H]; discriminate H ]]|]).
    done.
  - rewrite (branches_absent _ _ Hout). split; [lia|].
    split; [discriminate|]. intros [-> | ->]; exfalso; apply Hout; by_decision.
Qed.
